(** * navigation-toolbox: FIR filter utilities and trajectory georeferencing

    A shallow embedding of [src/src/filters.py] and of the numerical core of
    [src/Python/georeferencing.py], with the properties of the specification
    stated against it.

    Conventions.
    - A Python call either returns a value or raises: [result].
    - Finite float64 values are idealised as real numbers (exact arithmetic,
      no rounding, no overflow, an unsigned zero).  Where NumPy yields a
      special value instead of raising, the value is one of [PInf], [NInf],
      [NaN] of [npfloat].  The properties are stated in the code's own order
      of operations, or rest on cancellations that are exact in float64 as
      well; where rounding decides, the step is also given on binary64
      values ([translate_f64]).
    - [numpy], [scipy] and [quaternion] are libraries outside the repository:
      their array primitives are written out with the semantics documented by
      the library; [scipy.signal.firwin] and [scipy.signal.lfilter] are taken
      as parameters. *)

From Stdlib Require Import List ZArith Bool Arith Lia Reals Lra.
From Stdlib Require PrimFloat.
Import ListNotations.

Set Implicit Arguments.

(** ** Python results *)

Inductive exn : Type :=
| IndexError
| AxisError
| ValueError
| ZeroDivisionError
| LibraryError (code : nat).

Inductive result (A : Type) : Type :=
| Ok (a : A)
| Raise (e : exn).

Arguments Ok {A} a.
Arguments Raise {A} e.

Definition bind {A B : Type} (m : result A) (k : A -> result B) : result B :=
  match m with
  | Ok a => k a
  | Raise e => Raise e
  end.

Notation "x <- m ;; k" := (bind m (fun x => k))
  (at level 61, m at next level, right associativity).

Fixpoint mapM {A B : Type} (f : A -> result B) (l : list A) : result (list B) :=
  match l with
  | [] => Ok []
  | a :: l' => b <- f a ;; bs <- mapM f l' ;; Ok (b :: bs)
  end.

Definition returns {A : Type} (m : result A) : Prop := exists a, m = Ok a.

(** ** Numbers *)

(** A float64: a finite value, an infinity or not-a-number. *)
Inductive npfloat : Type :=
| Fin (r : R)
| PInf
| NInf
| NaN.

(** The number kinds that reach the code: a Python [int], a Python [float]
    and a NumPy [float64] scalar.  They differ in what a division by zero
    does. *)
Inductive number : Type :=
| PyInt (z : Z)
| PyFloat (x : npfloat)
| NpFloat64 (x : npfloat).

(** The value of a number as a float64. *)
Definition number_value (n : number) : npfloat :=
  match n with
  | PyInt z => Fin (IZR z)
  | PyFloat x => x
  | NpFloat64 x => x
  end.

Definition Req_b (x y : R) : bool := if Req_dec_T x y then true else false.
Definition Rlt_b (x y : R) : bool := if Rlt_dec x y then true else false.
Definition Rle_b (x y : R) : bool := if Rle_dec x y then true else false.

Definition np_negative (x : npfloat) : npfloat :=
  match x with
  | Fin r => Fin (- r)
  | PInf => NInf
  | NInf => PInf
  | NaN => NaN
  end.

Definition np_add (x y : npfloat) : npfloat :=
  match x, y with
  | NaN, _ | _, NaN => NaN
  | Fin a, Fin b => Fin (a + b)
  | PInf, NInf | NInf, PInf => NaN
  | PInf, _ | _, PInf => PInf
  | NInf, _ | _, NInf => NInf
  end.

Definition np_subtract (x y : npfloat) : npfloat := np_add x (np_negative y).

(** The infinity with the sign of a non-zero real. *)
Definition inf_of_sign (r : R) : npfloat := if Rlt_b 0 r then PInf else NInf.

Definition np_multiply (x y : npfloat) : npfloat :=
  match x, y with
  | NaN, _ | _, NaN => NaN
  | Fin a, Fin b => Fin (a * b)
  | Fin a, PInf | PInf, Fin a => if Req_b a 0 then NaN else inf_of_sign a
  | Fin a, NInf | NInf, Fin a => if Req_b a 0 then NaN else inf_of_sign (- a)
  | PInf, PInf | NInf, NInf => PInf
  | PInf, NInf | NInf, PInf => NInf
  end.

(** Division of float64 values: a zero divisor gives an infinity, or [NaN]
    for 0/0, and never raises. *)
Definition np_divide (x y : npfloat) : npfloat :=
  match x, y with
  | NaN, _ | _, NaN => NaN
  | Fin a, Fin b =>
      if Req_b b 0 then (if Req_b a 0 then NaN else inf_of_sign a)
      else Fin (a / b)
  | Fin _, PInf | Fin _, NInf => Fin 0
  | PInf, Fin b => if Rlt_b b 0 then NInf else PInf
  | NInf, Fin b => if Rlt_b b 0 then PInf else NInf
  | PInf, PInf | PInf, NInf | NInf, PInf | NInf, NInf => NaN
  end.

Definition np_sqrt (x : npfloat) : npfloat :=
  match x with
  | Fin a => if Rlt_b a 0 then NaN else Fin (sqrt a)
  | PInf => PInf
  | NInf => NaN
  | NaN => NaN
  end.

Definition np_arccos (x : npfloat) : npfloat :=
  match x with
  | Fin a => if Rle_b (-1) a && Rle_b a 1 then Fin (acos a) else NaN
  | _ => NaN
  end.

Definition np_cos (x : npfloat) : npfloat :=
  match x with
  | Fin a => Fin (cos a)
  | _ => NaN
  end.

Definition np_sin (x : npfloat) : npfloat :=
  match x with
  | Fin a => Fin (sin a)
  | _ => NaN
  end.

Definition is_zero (x : npfloat) : bool :=
  match x with
  | Fin a => Req_b a 0
  | _ => false
  end.

(** [x / y] where [x] is a Python float: Python raises on a zero [int] or
    [float] divisor, NumPy's scalar division does not. *)
Definition py_truediv (x : npfloat) (y : number) : result npfloat :=
  match y with
  | PyInt z =>
      if Z.eqb z 0 then Raise ZeroDivisionError else Ok (np_divide x (Fin (IZR z)))
  | PyFloat v =>
      if is_zero v then Raise ZeroDivisionError else Ok (np_divide x v)
  | NpFloat64 v => Ok (np_divide x v)
  end.

(** [x / y] for two numbers: NumPy's rule as soon as one of them is a
    [float64], Python's otherwise; the result has the kind of the rule. *)
Definition number_truediv (x y : number) : result number :=
  match x, y with
  | NpFloat64 _, _ | _, NpFloat64 _ =>
      Ok (NpFloat64 (np_divide (number_value x) (number_value y)))
  | _, _ =>
      if is_zero (number_value y) then Raise ZeroDivisionError
      else Ok (PyFloat (np_divide (number_value x) (number_value y)))
  end.

(** [np.mean] of a 1-D array: [NaN] on an empty one. *)
Definition np_mean (l : list R) : npfloat :=
  match l with
  | [] => NaN
  | _ => Fin (fold_right Rplus 0%R l / INR (length l))
  end.

(** ** Python lists and NumPy arrays *)

(** The cells [np.delete] keeps when the first cell has position [s]. *)
Definition kept_from {A : Type} (s : nat) (l : list A) (indices : list nat) : list A :=
  map snd
    (filter (fun p => negb (existsb (Nat.eqb (fst p)) indices))
       (combine (seq s (length l)) l)).

(** The cells of [l] that [np.delete] keeps. *)
Definition delete_positions {A : Type} (l : list A) (indices : list nat) : list A :=
  kept_from 0 l indices.

(** [l[k] = v] on an array, for a position inside it. *)
Fixpoint set_nth {A : Type} (k : nat) (v : A) (l : list A) : list A :=
  match l, k with
  | [], _ => []
  | _ :: l', O => v :: l'
  | x :: l', S k' => x :: set_nth k' v l'
  end.

Section Arrays.

Variable A : Type.

(** Start or stop of a slice, clamped the way Python clamps it. *)
Definition slice_bound (n : nat) (k : Z) : nat :=
  if (k <? 0)%Z then Z.to_nat (Z.max (Z.of_nat n + k) 0)
  else Nat.min (Z.to_nat k) n.

(** [l[:k]] *)
Definition slice_to (l : list A) (k : Z) : list A :=
  firstn (slice_bound (length l) k) l.

(** [l[k:]] *)
Definition slice_from (l : list A) (k : Z) : list A :=
  skipn (slice_bound (length l) k) l.

(** An array of dimension 0, of dimension 1, or of dimension 2 and more:
    [Arr2 ncols rows] has shape (length rows, ncols, ...), each row holding
    [ncols] cells (a cell is a scalar for a 2-D array, a sub-array
    otherwise). *)
Inductive ndarray : Type :=
| Arr0 (x : A)
| Arr1 (l : list A)
| Arr2 (ncols : nat) (rows : list (list A)).

Definition well_shaped (a : ndarray) : Prop :=
  match a with
  | Arr2 ncols rows => Forall (fun row => length row = ncols) rows
  | _ => True
  end.

Definition ndim (a : ndarray) : nat :=
  match a with
  | Arr0 _ => 0
  | Arr1 _ => 1
  | Arr2 _ _ => 2
  end.

(** Position of index [k] on an axis of length [n]; negative indices count
    from the end. *)
Definition normalize_index (n : nat) (k : Z) : result nat :=
  if ((0 <=? k) && (k <? Z.of_nat n))%Z then Ok (Z.to_nat k)
  else if ((- Z.of_nat n <=? k) && (k <? 0))%Z then Ok (Z.to_nat (Z.of_nat n + k))
  else Raise IndexError.

(** [np.take(l, k)] on a 1-D array. *)
Definition np_take (l : list A) (k : Z) : result A :=
  i <- normalize_index (length l) k ;;
  match nth_error l i with
  | Some x => Ok x
  | None => Raise IndexError
  end.

(** [np.repeat(x, n)] of a scalar. *)
Definition np_repeat (x : A) (n : Z) : result (list A) :=
  if (n <? 0)%Z then Raise ValueError else Ok (repeat x (Z.to_nat n)).

(** [np.concatenate((a, b, c))] of 1-D arrays. *)
Definition np_concatenate (parts : list (list A)) : list A := concat parts.

(** [np.take(data, k, axis=1)]: column [k], one cell per row.  Without a
    row the result is empty and no index is looked at. *)
Definition np_take_axis1 (ncols : nat) (rows : list (list A)) (k : Z)
  : result (list A) :=
  match rows with
  | [] => Ok []
  | _ :: _ =>
      _ <- normalize_index ncols k ;;
      mapM (fun row => np_take row k) rows
  end.

(** [col[:, None]]: a column as an array with one cell per row. *)
Definition new_axis (col : list A) : list (list A) :=
  map (fun x => [x]) col.

(** [np.repeat(block, n, axis=1)]: every cell of a row [n] times. *)
Definition np_repeat_axis1 (block : list (list A)) (n : Z)
  : result (list (list A)) :=
  if (n <? 0)%Z then Raise ValueError
  else Ok (map (fun row => flat_map (fun x => repeat x (Z.to_nat n)) row) block).

(** [np.concatenate((a, b, c), axis=1)]: the blocks side by side; they
    must have the same number of rows. *)
Fixpoint zip_rows (a b : list (list A)) : result (list (list A)) :=
  match a, b with
  | [], [] => Ok []
  | ra :: a', rb :: b' => rest <- zip_rows a' b' ;; Ok ((ra ++ rb) :: rest)
  | _, _ => Raise ValueError
  end.

Definition np_concatenate_axis1 (a b c : list (list A))
  : result (list (list A)) :=
  ab <- zip_rows a b ;; zip_rows ab c.

(** [np.delete(data, indices, axis)] for a list of non-negative indices,
    on axis 0 or 1. *)
Definition np_delete (data : ndarray) (indices : list nat) (axis : nat)
  : result ndarray :=
  match data, axis with
  | Arr1 l, 0 =>
      if forallb (fun i => i <? length l) indices
      then Ok (Arr1 (delete_positions l indices))
      else Raise IndexError
  | Arr2 ncols rows, 0 =>
      if forallb (fun i => i <? length rows) indices
      then Ok (Arr2 ncols (delete_positions rows indices))
      else Raise IndexError
  | Arr2 ncols rows, 1 =>
      if forallb (fun i => i <? ncols) indices
      then Ok (Arr2 (ncols - length (nodup Nat.eq_dec indices))
                 (map (fun row => delete_positions row indices) rows))
      else Raise IndexError
  | _, _ => Raise AxisError
  end.

End Arrays.

Arguments Arr0 {A} x.
Arguments Arr1 {A} l.
Arguments Arr2 {A} ncols rows.

(** ** [src/src/filters.py] *)

Module Filters.

Record FilterConfiguration : Type := mkFilterConfiguration {
  order : Z;
  cutoff : R;
  appendage : Z;
  sample_frequency : number
}.

(** [FilterConfiguration.__init__] *)
Definition FilterConfiguration__init__ (order : Z) (cutoff : R) (appendage : Z)
  : FilterConfiguration :=
  {| order := order;
     cutoff := cutoff;
     appendage := appendage;
     sample_frequency := PyInt 0 |}.

Section Appendage.

Variable A : Type.

Definition add_appendage (data : ndarray A) (config : FilterConfiguration)
  : result (ndarray A) :=
  match data with
  | Arr1 l =>
      first <- np_take l 0 ;;
      front <- np_repeat first (appendage config) ;;
      last <- np_take l (-1) ;;
      end_ <- np_repeat last (appendage config) ;;
      Ok (Arr1 (np_concatenate [front; l; end_]))
  | Arr2 ncols rows =>
      first <- np_take_axis1 ncols rows 0 ;;
      front <- np_repeat_axis1 (new_axis first) (appendage config) ;;
      last <- np_take_axis1 ncols rows (-1) ;;
      end_ <- np_repeat_axis1 (new_axis last) (appendage config) ;;
      rows' <- np_concatenate_axis1 front rows end_ ;;
      Ok (Arr2 (Z.to_nat (appendage config) + ncols
                + Z.to_nat (appendage config)) rows')
  | Arr0 _ => Raise AxisError
  end.

Definition remove_appendage (data : ndarray A) (config : FilterConfiguration)
  : result (ndarray A) :=
  shape <- match data with
           | Arr1 l => Ok (length l, 0)
           | Arr2 ncols _ => Ok (ncols, 1)
           | Arr0 _ => Raise IndexError
           end ;;
  let '(length, axis) := shape in
  let indices := seq 0 length in
  let indices :=
    slice_to indices (appendage config)
    ++ slice_from indices (- appendage config) in
  np_delete data indices axis.

(** *** The padded rows, cell by cell *)

Definition repeat_cells (b : nat) (cells : list A) : list A :=
  flat_map (fun x => repeat x b) cells.

Definition first_cell (row : list A) : list A := firstn 1 row.

Definition last_cell (row : list A) : list A := skipn (length row - 1) row.

(** A row between [b] copies of its first and of its last cell. *)
Definition pad_row (b : nat) (row : list A) : list A :=
  (repeat_cells b (first_cell row) ++ row) ++ repeat_cells b (last_cell row).

End Appendage.

Arguments repeat_cells {A} b cells.
Arguments first_cell {A} row.
Arguments last_cell {A} row.
Arguments pad_row {A} b row.

Section FIR.

(** Samples before and after filtering, and the filter coefficients. *)
Variables A B coefficients : Type.

(** [scipy.signal.firwin(numtaps, cutoff, fs)] *)
Variable firwin : Z -> R -> number -> result coefficients.

(** [scipy.signal.lfilter(b, a, x, axis)] *)
Variable lfilter : coefficients -> R -> ndarray A -> Z -> result (ndarray B).

(** [0.5 * (config.order - 1) / config.sample_frequency] *)
Definition delay_of (config : FilterConfiguration) : result npfloat :=
  py_truediv (np_multiply (Fin (1 / 2)) (Fin (IZR (order config - 1))))
    (sample_frequency config).

Definition FIR_filter (data : ndarray A) (config : FilterConfiguration)
  (axis : Z) : result (ndarray B * npfloat) :=
  let axis := if Nat.eqb (ndim data) 1 then (-1)%Z else axis in
  filter <- firwin (order config) (cutoff config) (sample_frequency config) ;;
  filtered_data <- lfilter filter 1 data axis ;;
  delay <- delay_of config ;;
  Ok (filtered_data, delay).

End FIR.

Section Kaiser.

Variables A B coefficients shape : Type.

(** [scipy.signal.kaiserord(ripple, width)]: the number of taps and the
    shape parameter of the window. *)
Variable kaiserord : number -> number -> result (Z * shape).

(** [scipy.signal.firwin(numtaps, cutoff, window=('kaiser', beta))] *)
Variable firwin_kaiser : Z -> number -> shape -> result coefficients.

(** [scipy.signal.lfilter(b, a, x, axis)] *)
Variable lfilter : coefficients -> R -> ndarray A -> Z -> result (ndarray B).

Definition FIR_filter_kaiser (data : ndarray A) (sample_time : number)
  (attenuation_frequency transition_frequency cutoff_frequency : number)
  (axis : Z) : result (ndarray B) :=
  sample_frequency <- number_truediv (PyInt 1) sample_time ;;
  nyquist_frequency <- number_truediv sample_frequency (PyFloat (Fin 2)) ;;
  width <- number_truediv transition_frequency nyquist_frequency ;;
  design <- kaiserord attenuation_frequency width ;;
  let '(order, beta) := design in
  cutoff <- number_truediv cutoff_frequency nyquist_frequency ;;
  filter <- firwin_kaiser order cutoff beta ;;
  lfilter filter 1 data axis.

End Kaiser.

End Filters.

(** ** [src/Python/georeferencing.py] *)

Module Georeferencing.

Local Open Scope R_scope.

(** *** The [quaternion] library: scalar-first quaternions *)

Record quaternion : Type := quat { qw : R; qx : R; qy : R; qz : R }.

Definition qmul (p q : quaternion) : quaternion :=
  quat (qw p * qw q - qx p * qx q - qy p * qy q - qz p * qz q)
       (qw p * qx q + qx p * qw q + qy p * qz q - qz p * qy q)
       (qw p * qy q - qx p * qz q + qy p * qw q + qz p * qx q)
       (qw p * qz q + qx p * qy q - qy p * qx q + qz p * qw q).

Definition conjugate (q : quaternion) : quaternion :=
  quat (qw q) (- qx q) (- qy q) (- qz q).



(** A row of an (N, 3) array and a row of an (N, 4) array. *)
Definition vec3 : Type := (R * R * R)%type.
Definition row4 : Type := (R * R * R * R)%type.

Definition as_quat_array (rows : list row4) : list quaternion :=
  map (fun r => let '(a, b, c, d) := r in quat a b c d) rows.

Definition as_float_array (qs : list quaternion) : list row4 :=
  map (fun q => (qw q, qx q, qy q, qz q)) qs.

(** *** NumPy arithmetic on (N, 3) arrays *)

Definition vadd (u v : vec3) : vec3 :=
  let '(a, b, c) := u in let '(d, e, f) := v in (a + d, b + e, c + f).

Definition vsub (u v : vec3) : vec3 :=
  let '(a, b, c) := u in let '(d, e, f) := v in (a - d, b - e, c - f).

Fixpoint map2 {X Y Z : Type} (f : X -> Y -> Z) (xs : list X) (ys : list Y)
  : list Z :=
  match xs, ys with
  | x :: xs', y :: ys' => f x y :: map2 f xs' ys'
  | _, _ => []
  end.

(** An elementwise operation on two arrays with broadcasting along the
    first axis: equal lengths, or one of them of length one. *)
Definition broadcast2 {X Y Z : Type} (f : X -> Y -> Z) (xs : list X)
  (ys : list Y) : result (list Z) :=
  if Nat.eqb (length xs) (length ys) then Ok (map2 f xs ys)
  else match xs, ys with
       | [x], _ => Ok (map (f x) ys)
       | _, [y] => Ok (map (fun x => f x y) xs)
       | _, _ => Raise ValueError
       end.

(** [np.zeros(positions.shape)] with the last column set to 1. *)
Definition unit_directions (positions : list vec3) : list vec3 :=
  map (fun _ => (0, 0, 1)) positions.

(** *** The repository's [utilities] module *)

(** Modelled from the spec: [utilities.vector_to_quaternion] is not among
    the sources; the spec has it embed a vector as a pure quaternion, one
    with a zero scalar part. *)
Definition pure_quaternion (v : vec3) : quaternion :=
  let '(a, b, c) := v in quat 0 a b c.

Definition vector_to_quaternion (vs : list vec3) : list quaternion :=
  map pure_quaternion vs.

(** Modelled from the spec: [utilities.quaternion_to_vector] is not among
    the sources; it is the conversion back from a pure quaternion to its
    vector part. *)
Definition vector_part (q : quaternion) : vec3 := (qx q, qy q, qz q).

Definition quaternion_to_vector (qs : list quaternion) : list vec3 :=
  map vector_part qs.


(** One vector turned by one quaternion, as the stages do it:
    the vector part of [q v conj(q)]. *)
Definition rotate_vector (q : quaternion) (v : vec3) : vec3 :=
  vector_part (qmul (qmul q (pure_quaternion v)) (conjugate q)).

(** *** Lever arm *)

Definition getitem (arr : list npfloat) (i : nat) : result npfloat :=
  match nth_error arr i with
  | Some v => Ok v
  | None => Raise IndexError
  end.

Definition calculate_lever_arm (arm : list npfloat) (angle : npfloat)
  : result (list npfloat) :=
  a <- getitem arm 1 ;;
  b <- getitem arm 2 ;;
  let c := np_sqrt (np_add (np_multiply a a) (np_multiply b b)) in
  let alpha := np_arccos (np_divide b c) in
  let phi := np_subtract angle alpha in
  let d := np_multiply c (np_cos phi) in
  let e := np_multiply c (np_sin phi) in
  arm0 <- getitem arm 0 ;;
  let x := np_negative arm0 in
  let y := e in
  let z := np_negative d in
  Ok [x; y; z].

(** *** Trajectories *)

(** [rotation * array * rotation.conjugate()] for one quaternion and an
    array of quaternions. *)
Definition sandwich (rotation : quaternion) (qs : list quaternion)
  : list quaternion :=
  map (fun q => qmul (qmul rotation q) (conjugate rotation)) qs.

Definition calculate_transducer_trajectory (cam_positions : list vec3)
  (cam_attitudes : list row4) (lever_arms : list vec3) : result (list vec3) :=
  let cam_directions := unit_directions cam_positions in
  let lever_arms := vector_to_quaternion lever_arms in
  let cam_directions := vector_to_quaternion cam_directions in
  let cam_attitudes := as_quat_array cam_attitudes in
  t <- broadcast2 qmul cam_attitudes cam_directions ;;
  cam_directions <- broadcast2 qmul t (map conjugate cam_attitudes) ;;
  let cam_directions := quaternion_to_vector cam_directions in
  t <- broadcast2 qmul cam_attitudes lever_arms ;;
  lever_arms <- broadcast2 qmul t (map conjugate cam_attitudes) ;;
  let lever_arms := quaternion_to_vector lever_arms in
  broadcast2 vadd cam_positions lever_arms.

Section Georeference.

(** [utilities.quaternion_from_axis_angle(axis, angle)], not among the
    sources: any function will do for what follows. *)
Variable quaternion_from_axis_angle : vec3 -> R -> quaternion.

(** The rotation of the initial attitude (roll, pitch, heading). *)
Definition initial_rotation (init_attitude : vec3) : quaternion :=
  let '(roll, pitch, yaw) := init_attitude in
  let q_roll := quaternion_from_axis_angle (1, 0, 0) roll in
  let q_pitch := quaternion_from_axis_angle (0, 1, 0) pitch in
  let q_yaw := quaternion_from_axis_angle (0, 0, 1) yaw in
  qmul (qmul q_yaw q_pitch) q_roll.

(** The rotation step on an (N, 3) array of positions. *)
Definition rotate_positions (rotation : quaternion) (positions : list vec3)
  : list vec3 :=
  quaternion_to_vector (sandwich rotation (vector_to_quaternion positions)).

(** The rotation step on the attitudes. *)
Definition rotate_attitudes (rotation : quaternion) (attitudes : list row4)
  : list row4 :=
  as_float_array (map (qmul rotation) (as_quat_array attitudes)).

(** [positions - trans_init_position + init_position] *)
Definition translate (positions : list vec3)
  (trans_init_position init_position : vec3) : list vec3 :=
  map (fun p => vadd (vsub p trans_init_position) init_position) positions.

Definition georeference_trajectories (cam_positions : list vec3)
  (cam_attitudes : list row4) (trans_positions : list vec3)
  (init_position init_attitude : vec3)
  : result (list vec3 * list row4 * list vec3) :=
  let rotation := initial_rotation init_attitude in
  let cam_directions := unit_directions cam_positions in
  let cam_attitudes := rotate_attitudes rotation cam_attitudes in
  let cam_positions := rotate_positions rotation cam_positions in
  let trans_positions := rotate_positions rotation trans_positions in
  let cam_directions := rotate_positions rotation cam_directions in
  match trans_positions with
  | [] => Raise IndexError
  | trans_init_position :: _ =>
      let trans_positions :=
        translate trans_positions trans_init_position init_position in
      let cam_positions :=
        translate cam_positions trans_init_position init_position in
      Ok (cam_positions, cam_attitudes, trans_positions)
  end.

(** The inclination and axis rotations of the alignment stage. *)
Definition alignment_rotation (inclination : R) : quaternion :=
  let q_i := quaternion_from_axis_angle (1, 0, 0) (- inclination) in
  let q_1 := quaternion_from_axis_angle (0, 1, 0) (90 * PI / 180) in
  let q_2 := quaternion_from_axis_angle (1, 0, 0) (90 * PI / 180) in
  qmul (qmul q_2 q_1) q_i.

Definition align_trajectories (cam_positions : list vec3)
  (cam_attitudes : list row4) (trans_positions : list vec3) (inclination : R)
  : result (list vec3 * list row4 * list vec3) :=
  let rotation := alignment_rotation inclination in
  let cam_directions := unit_directions cam_positions in
  let cam_positions := vector_to_quaternion cam_positions in
  let cam_attitudes := as_quat_array cam_attitudes in
  let cam_directions := vector_to_quaternion cam_directions in
  let trans_positions := vector_to_quaternion trans_positions in
  let cam_attitudes := map (qmul rotation) cam_attitudes in
  let cam_positions := sandwich rotation cam_positions in
  let trans_positions := sandwich rotation trans_positions in
  t <- broadcast2 qmul cam_attitudes cam_directions ;;
  cam_directions <- broadcast2 qmul t (map conjugate cam_attitudes) ;;
  let cam_positions := quaternion_to_vector cam_positions in
  let cam_attitudes := as_float_array cam_attitudes in
  let cam_directions := quaternion_to_vector cam_directions in
  let trans_positions := quaternion_to_vector trans_positions in
  Ok (cam_positions, cam_attitudes, trans_positions).

(** [utilities.closest_point(timestamp, times)], not among the sources:
    the index of the gyroscope sample it selects, or what it raises. *)
Variable closest_point : R -> list R -> result Z.

(** [q_roll * q_pitch * q_yaw] of a gyroscope attitude. *)
Definition body_rotation (gyro_attitude : vec3) : quaternion :=
  let '(roll, pitch, yaw) := gyro_attitude in
  let q_roll := quaternion_from_axis_angle (1, 0, 0) roll in
  let q_pitch := quaternion_from_axis_angle (0, 1, 0) pitch in
  let q_yaw := quaternion_from_axis_angle (0, 0, 1) yaw in
  qmul (qmul q_roll q_pitch) q_yaw.

(** The arrays the loop of [calculate_camera_trajectory] updates in place. *)
Record camera_state : Type := mk_camera_state {
  state_lever_arms : list quaternion;
  state_directions : list quaternion;
  state_attitudes : list quaternion
}.

(** One turn of the loop, for APS sample [k]. *)
Definition camera_step (aps gyro : list (R * vec3)) (q_dec : quaternion)
  (k : nat) (st : camera_state) : result camera_state :=
  match nth_error aps k with
  | None => Raise IndexError
  | Some (aps_timestamp, aps_position) =>
      j <- closest_point aps_timestamp (map fst gyro) ;;
      i <- normalize_index (length gyro) j ;;
      match nth_error gyro i with
      | None => Raise IndexError
      | Some (gyro_timestamp, gyro_attitude) =>
          let q_body := body_rotation gyro_attitude in
          match nth_error (state_lever_arms st) k with
          | None => Raise IndexError
          | Some lever_arm =>
              let lever_arms :=
                set_nth k (qmul (qmul q_body lever_arm) (conjugate q_body))
                  (state_lever_arms st) in
              let q_cam := qmul q_dec q_body in
              match nth_error (state_directions st) k with
              | None => Raise IndexError
              | Some direction =>
                  let directions :=
                    set_nth k (qmul (qmul q_cam direction) (conjugate q_cam))
                      (state_directions st) in
                  let attitudes := set_nth k q_cam (state_attitudes st) in
                  Ok (mk_camera_state lever_arms directions attitudes)
              end
          end
      end
  end.

(** [for k in ks] *)
Fixpoint camera_loop (aps gyro : list (R * vec3)) (q_dec : quaternion)
  (ks : list nat) (st : camera_state) : result camera_state :=
  match ks with
  | [] => Ok st
  | k :: ks' =>
      st' <- camera_step aps gyro q_dec k st ;;
      camera_loop aps gyro q_dec ks' st'
  end.

(** The body rotation of the gyroscope sample selected for APS sample
    [k], when the selection succeeds. *)
Definition selected_rotation (aps gyro : list (R * vec3)) (k : nat)
  : option quaternion :=
  match nth_error aps k with
  | None => None
  | Some (aps_timestamp, _) =>
      match closest_point aps_timestamp (map fst gyro) with
      | Raise _ => None
      | Ok j =>
          match normalize_index (length gyro) j with
          | Raise _ => None
          | Ok i =>
              match nth_error gyro i with
              | None => None
              | Some (_, gyro_attitude) => Some (body_rotation gyro_attitude)
              end
          end
      end
  end.

Definition calculate_camera_trajectory (aps gyro : list (R * vec3))
  (lever_arms : list vec3) (declination : R)
  : result (list vec3 * list quaternion * list vec3) :=
  let K := length aps in
  let cam_attitudes := map (fun _ => quat 0 0 0 0) aps in
  let cam_directions := map (fun _ => (1, 0, 0)) aps in
  let cam_directions := vector_to_quaternion cam_directions in
  let lever_arms := vector_to_quaternion lever_arms in
  let q_dec := quaternion_from_axis_angle (0, 1, 0) declination in
  st <- camera_loop aps gyro q_dec (seq 0 K)
          (mk_camera_state lever_arms cam_directions cam_attitudes) ;;
  let cam_directions := quaternion_to_vector (state_directions st) in
  let lever_arms := quaternion_to_vector (state_lever_arms st) in
  cam_positions <- broadcast2 vadd (map snd aps) lever_arms ;;
  Ok (cam_positions, state_attitudes st, cam_directions).

End Georeference.

(** *** The translation step on binary64 values

    The same two operations as [translate], on the float64 values NumPy
    holds, with the rounding of each subtraction and addition. *)

Definition vec3_f64 : Type :=
  (PrimFloat.float * PrimFloat.float * PrimFloat.float)%type.

Definition vadd_f64 (u v : vec3_f64) : vec3_f64 :=
  let '(a, b, c) := u in
  let '(d, e, f) := v in
  (PrimFloat.add a d, PrimFloat.add b e, PrimFloat.add c f).

Definition vsub_f64 (u v : vec3_f64) : vec3_f64 :=
  let '(a, b, c) := u in
  let '(d, e, f) := v in
  (PrimFloat.sub a d, PrimFloat.sub b e, PrimFloat.sub c f).

(** [positions - trans_init_position + init_position] *)
Definition translate_f64 (positions : list vec3_f64)
  (trans_init_position init_position : vec3_f64) : list vec3_f64 :=
  map (fun p => vadd_f64 (vsub_f64 p trans_init_position) init_position)
    positions.

(** [u == v], component by component. *)
Definition veqb_f64 (u v : vec3_f64) : bool :=
  let '(a, b, c) := u in
  let '(d, e, f) := v in
  PrimFloat.eqb a d && PrimFloat.eqb b e && PrimFloat.eqb c f.

End Georeferencing.

(** ** [src/Python/filter_hipap.py] *)

Module FilterHipap.

(** [time[1:] - time[0:-1]] *)
Definition time_steps (time : list R) : list R :=
  Georeferencing.map2 Rminus (slice_from time 1) (slice_to time (-1)).

(** The sample frequency [main] derives from the timestamps:
    [1 / np.mean(time[1:] - time[0:-1])]. *)
Definition hipap_sample_frequency (time : list R) : npfloat :=
  np_divide (Fin 1) (np_mean (time_steps time)).

End FilterHipap.

(** * Properties *)

(** ** Results and numbers *)

Lemma bind_Ok {A B : Type} (a : A) (k : A -> result B) :
  (x <- Ok a ;; k x) = k a.
Proof. reflexivity. Qed.

Lemma bind_returns {A B : Type} (m : result A) (k : A -> result B) (b : B) :
  (x <- m ;; k x) = Ok b -> exists a, m = Ok a /\ k a = Ok b.
Proof.
  destruct m as [a | e]; simpl; intros H.
  - exists a; split; [reflexivity | exact H].
  - discriminate H.
Qed.

Lemma Req_b_true (x y : R) : x = y -> Req_b x y = true.
Proof.
  intros H. unfold Req_b. destruct (Req_dec_T x y); [reflexivity | contradiction].
Qed.

Lemma Req_b_false (x y : R) : x <> y -> Req_b x y = false.
Proof.
  intros H. unfold Req_b. destruct (Req_dec_T x y); [contradiction | reflexivity].
Qed.

Lemma Rlt_b_true (x y : R) : (x < y)%R -> Rlt_b x y = true.
Proof.
  intros H. unfold Rlt_b. destruct (Rlt_dec x y); [reflexivity | contradiction].
Qed.

Lemma Rlt_b_false (x y : R) : (y <= x)%R -> Rlt_b x y = false.
Proof. intros H; unfold Rlt_b; destruct (Rlt_dec x y); [lra | reflexivity]. Qed.

Lemma Rle_b_true (x y : R) : (x <= y)%R -> Rle_b x y = true.
Proof.
  intros H. unfold Rle_b. destruct (Rle_dec x y); [reflexivity | contradiction].
Qed.

Lemma np_add_NaN_r (x : npfloat) : np_add x NaN = NaN.
Proof. destruct x; reflexivity. Qed.

Lemma np_multiply_NaN_r (x : npfloat) : np_multiply x NaN = NaN.
Proof. destruct x; reflexivity. Qed.

(** ** The FIR filter *)

Module FiltersFacts.

Import Filters.

Section FIR.

Variables A B coefficients : Type.
Variable firwin : Z -> R -> number -> result coefficients.
Variable lfilter : coefficients -> R -> ndarray A -> Z -> result (ndarray B).

Lemma delay_of_positive (config : FilterConfiguration) (fs : R) :
  number_value (sample_frequency config) = Fin fs ->
  (0 < fs)%R ->
  delay_of config = Ok (Fin (1 / 2 * IZR (order config - 1) / fs)).
Proof.
  intros Hfs Hpos. unfold delay_of, py_truediv.
  destruct (sample_frequency config) as [z | x | x]; simpl in Hfs.
  - injection Hfs as Hz. subst fs.
    destruct (Z.eqb_spec z 0) as [-> | Hz].
    + lra.
    + simpl. rewrite Req_b_false by lra. reflexivity.
  - subst x. unfold is_zero. rewrite Req_b_false by lra.
    simpl. rewrite Req_b_false by lra. reflexivity.
  - subst x. simpl. rewrite Req_b_false by lra. reflexivity.
Qed.

(** C7.  With a positive sample frequency [fs] the call returns as soon as
    the two [scipy] calls return, and the delay it returns is
    [0.5 * (order - 1) / fs]. *)
Theorem FIR_filter_delay_formula (data : ndarray A)
  (config : FilterConfiguration) (axis : Z) (fs : R) :
  number_value (sample_frequency config) = Fin fs ->
  (0 < fs)%R ->
  FIR_filter firwin lfilter data config axis =
    (taps <- firwin (order config) (cutoff config) (sample_frequency config) ;;
     filtered <- lfilter taps 1%R data
                   (if Nat.eqb (ndim data) 1 then (-1)%Z else axis) ;;
     Ok (filtered, Fin (1 / 2 * IZR (order config - 1) / fs))).
Proof.
  intros Hfs Hpos. unfold FIR_filter.
  rewrite (delay_of_positive config Hfs Hpos). reflexivity.
Qed.

(** C8.  On a 1-D array the filter is applied along axis -1 whatever axis
    the caller passes: any two axis arguments give the same result. *)
Theorem FIR_filter_1d_axis_forced (l : list A)
  (config : FilterConfiguration) (axis axis' : Z) :
  FIR_filter firwin lfilter (Arr1 l) config axis =
    (taps <- firwin (order config) (cutoff config) (sample_frequency config) ;;
     filtered <- lfilter taps 1%R (Arr1 l) (-1)%Z ;;
     delay <- delay_of config ;;
     Ok (filtered, delay))
  /\ FIR_filter firwin lfilter (Arr1 l) config axis =
     FIR_filter firwin lfilter (Arr1 l) config axis'.
Proof. split; reflexivity. Qed.

(** C10, as the code has it.  A configuration fresh from the constructor
    has sample frequency the integer 0.  [FIR_filter] hands it to [firwin]
    unchecked: what [firwin] or [lfilter] raises comes first, and only once
    both have returned does the delay computation raise
    [ZeroDivisionError].  Either way the call never returns a result. *)
Theorem FIR_filter_fresh_configuration (data : ndarray A) (axis : Z)
  (order : Z) (cutoff : R) (appendage : Z) :
  let config := FilterConfiguration__init__ order cutoff appendage in
  sample_frequency config = PyInt 0
  /\ delay_of config = Raise ZeroDivisionError
  /\ FIR_filter firwin lfilter data config axis =
       (taps <- firwin order cutoff (PyInt 0) ;;
        _ <- lfilter taps 1%R data
               (if Nat.eqb (ndim data) 1 then (-1)%Z else axis) ;;
        Raise ZeroDivisionError)
  /\ ~ returns (FIR_filter firwin lfilter data config axis).
Proof.
  intros config. repeat split.
  intros [r Hr]. unfold FIR_filter in Hr.
  apply bind_returns in Hr. destruct Hr as [taps [_ Hr]].
  apply bind_returns in Hr. destruct Hr as [filtered [_ Hr]].
  discriminate Hr.
Qed.

End FIR.

(** C10 as stated fails when [firwin] refuses a sampling frequency of zero,
    as the one of [scipy] does for a positive cutoff: the call then raises
    [ValueError] and never reaches the division. *)
Lemma FIR_filter_fresh_configuration_counterexample :
  let firwin := fun (_ : Z) (_ : R) (fs : number) =>
                  if is_zero (number_value fs) then Raise ValueError
                  else Ok tt in
  let lfilter := fun (_ : unit) (_ : R) (x : ndarray Z) (_ : Z) => Ok x in
  let config := FilterConfiguration__init__ 8 (1 / 20) 10 in
  FIR_filter firwin lfilter (Arr1 [1; 2; 3]%Z) config 0 = Raise ValueError
  /\ FIR_filter firwin lfilter (Arr1 [1; 2; 3]%Z) config 0
     <> Raise ZeroDivisionError.
Proof.
  intros firwin lfilter config.
  assert (Hrun : FIR_filter firwin lfilter (Arr1 [1; 2; 3]%Z) config 0
                 = Raise ValueError).
  { unfold FIR_filter, firwin. simpl.
    rewrite Req_b_true by reflexivity. reflexivity. }
  split; [exact Hrun |]. rewrite Hrun. discriminate.
Qed.

(** An 8-tap filter on data sampled at 100 Hz: a delay of 0.5 * 7 / 100. *)
Lemma FIR_filter_delay_formula_witness :
  let config := {| order := 8; cutoff := 1 / 20; appendage := 10;
                   sample_frequency := NpFloat64 (Fin 100) |} in
  let firwin := fun (_ : Z) (_ : R) (_ : number) => Ok tt in
  let lfilter := fun (_ : unit) (_ : R) (x : ndarray Z) (_ : Z) => Ok x in
  number_value (sample_frequency config) = Fin 100
  /\ (0 < 100)%R
  /\ FIR_filter firwin lfilter (Arr1 [1; 2; 3]%Z) config 1
     = Ok (Arr1 [1; 2; 3]%Z, Fin (1 / 2 * IZR (8 - 1) / 100)).
Proof.
  intros config firwin lfilter.
  assert (Hfs : number_value (sample_frequency config) = Fin 100) by reflexivity.
  assert (Hpos : (0 < 100)%R) by lra.
  split; [exact Hfs | split; [exact Hpos |]].
  exact (FIR_filter_delay_formula firwin lfilter (Arr1 [1; 2; 3]%Z) config 1
           Hfs Hpos).
Defined.

End FiltersFacts.

(** ** Padding and its removal *)

Module AppendageFacts.

Import Filters.

Section Positions.

Variable A : Type.

Lemma delete_positions_kept_from (l : list A) (indices : list nat) :
  delete_positions l indices = kept_from 0 l indices.
Proof. reflexivity. Qed.

Lemma existsb_eqb_In (i : nat) (indices : list nat) :
  existsb (Nat.eqb i) indices = true <-> In i indices.
Proof.
  rewrite existsb_exists. split.
  - intros [j [Hin Heq]]. apply Nat.eqb_eq in Heq. subst j. exact Hin.
  - intros Hin. exists i. split; [exact Hin | apply Nat.eqb_refl].
Qed.

Lemma kept_from_cons (s : nat) (a : A) (l : list A) (indices : list nat) :
  kept_from s (a :: l) indices =
    (if existsb (Nat.eqb s) indices then [] else [a])
    ++ kept_from (S s) l indices.
Proof.
  unfold kept_from. simpl.
  destruct (existsb (Nat.eqb s) indices); reflexivity.
Qed.

Lemma kept_from_app (l1 l2 : list A) (indices : list nat) :
  forall s,
    kept_from s (l1 ++ l2) indices =
      kept_from s l1 indices ++ kept_from (s + length l1) l2 indices.
Proof.
  induction l1 as [| a l1 IH]; intros s.
  - simpl. rewrite Nat.add_0_r. reflexivity.
  - rewrite <- app_comm_cons, !kept_from_cons, IH, <- app_assoc.
    simpl length. rewrite Nat.add_succ_r. reflexivity.
Qed.

Lemma kept_from_all (l : list A) (indices : list nat) :
  forall s,
    (forall i, s <= i < s + length l -> In i indices) ->
    kept_from s l indices = [].
Proof.
  induction l as [| a l IH]; intros s H.
  - reflexivity.
  - rewrite kept_from_cons.
    assert (Hs : existsb (Nat.eqb s) indices = true).
    { apply existsb_eqb_In, H. simpl. lia. }
    rewrite Hs. simpl. apply IH. intros i Hi. apply H. simpl. lia.
Qed.

Lemma kept_from_none (l : list A) (indices : list nat) :
  forall s,
    (forall i, s <= i < s + length l -> ~ In i indices) ->
    kept_from s l indices = l.
Proof.
  induction l as [| a l IH]; intros s H.
  - reflexivity.
  - rewrite kept_from_cons.
    assert (Hs : existsb (Nat.eqb s) indices = false).
    { apply not_true_is_false. intros Hin. apply existsb_eqb_In in Hin.
      apply (H s); [simpl; lia | exact Hin]. }
    rewrite Hs. simpl. f_equal. apply IH. intros i Hi. apply H. simpl. lia.
Qed.

(** Deleting the first [b] and the last [b] positions of a padded row
    gives the row back. *)
Lemma delete_positions_appendage (front row back : list A) (b : nat) :
  length front = b ->
  length back = b ->
  delete_positions (front ++ row ++ back)
    (seq 0 b ++ seq (b + length row) b) = row.
Proof.
  intros Hf Hb. rewrite delete_positions_kept_from, !kept_from_app.
  rewrite kept_from_all, kept_from_none, kept_from_all.
  - simpl. apply app_nil_r.
  - intros i Hi. apply in_or_app. right. apply in_seq. lia.
  - intros i Hi Hin. apply in_app_or in Hin.
    destruct Hin as [Hin | Hin]; apply in_seq in Hin; lia.
  - intros i Hi. apply in_or_app. left. apply in_seq. lia.
Qed.

(** Deleting every position leaves nothing. *)
Lemma delete_positions_everything (l : list A) :
  delete_positions l (seq 0 (length l)) = [].
Proof.
  rewrite delete_positions_kept_from. apply kept_from_all.
  intros i Hi. apply in_seq. lia.
Qed.

(** The indices [remove_appendage] computes. *)
Lemma slice_to_seq (n : nat) (k : Z) :
  (0 <= k)%Z -> Z.to_nat k <= n ->
  slice_to (seq 0 n) k = seq 0 (Z.to_nat k).
Proof.
  intros Hk Hle. unfold slice_to, slice_bound.
  rewrite length_seq.
  destruct (Z.ltb_spec k 0) as [Hneg | _]; [lia |].
  rewrite Nat.min_l by exact Hle.
  replace n with (Z.to_nat k + (n - Z.to_nat k)) at 1 by lia.
  rewrite seq_app, firstn_app, length_seq, Nat.sub_diag.
  rewrite firstn_all2 by (rewrite length_seq; lia).
  simpl. apply app_nil_r.
Qed.

Lemma slice_from_seq_negative (n : nat) (k : Z) :
  (0 < k)%Z -> Z.to_nat k <= n ->
  slice_from (seq 0 n) (- k) = seq (n - Z.to_nat k) (Z.to_nat k).
Proof.
  intros Hk Hle. unfold slice_from, slice_bound.
  rewrite length_seq.
  destruct (Z.ltb_spec (- k) 0) as [_ | Hpos]; [| lia].
  rewrite skipn_seq. f_equal; lia.
Qed.

Lemma slice_from_zero (l : list A) : slice_from l (- 0) = l.
Proof. reflexivity. Qed.

Lemma slice_to_zero (l : list A) : slice_to l 0 = [].
Proof. reflexivity. Qed.

End Positions.

Section RoundTrip.

Variable A : Type.

Lemma np_take_first (a : A) (l : list A) : np_take (a :: l) 0 = Ok a.
Proof. reflexivity. Qed.

Lemma nth_error_last (l : list A) (d : A) :
  l <> [] -> nth_error l (length l - 1) = Some (last l d).
Proof.
  induction l as [| a l IH]; intros Hne; [contradiction |].
  destruct l as [| a' l'].
  - reflexivity.
  - simpl length in *. simpl last.
    replace (S (S (length l')) - 1) with (S (S (length l') - 1)) by lia.
    simpl nth_error. apply IH. discriminate.
Qed.

Lemma np_take_last (l : list A) (d : A) :
  l <> [] -> np_take l (-1) = Ok (last l d).
Proof.
  intros Hne. unfold np_take, normalize_index.
  assert (Hlen : 0 < length l) by (destruct l; [contradiction | simpl; lia]).
  replace ((0 <=? -1)%Z && (-1 <? Z.of_nat (length l))%Z) with false by reflexivity.
  replace ((- Z.of_nat (length l) <=? -1)%Z && (-1 <? 0)%Z) with true.
  - simpl. replace (Z.to_nat (Z.of_nat (length l) + -1)) with (length l - 1) by lia.
    rewrite (nth_error_last d Hne). reflexivity.
  - symmetry. apply andb_true_intro. split; [apply Z.leb_le; lia | reflexivity].
Qed.

(** What [add_appendage] returns on a non-empty 1-D array. *)
Lemma add_appendage_1d (a : A) (l : list A) (config : FilterConfiguration) :
  (0 <= appendage config)%Z ->
  add_appendage (Arr1 (a :: l)) config =
    Ok (Arr1 (repeat a (Z.to_nat (appendage config))
              ++ (a :: l)
              ++ repeat (last (a :: l) a) (Z.to_nat (appendage config)))).
Proof.
  intros Hb. unfold add_appendage.
  rewrite np_take_first, bind_Ok.
  unfold np_repeat. destruct (Z.ltb_spec (appendage config) 0) as [Hneg | _]; [lia |].
  rewrite bind_Ok, (@np_take_last (a :: l) a) by discriminate.
  rewrite !bind_Ok. unfold np_concatenate. simpl concat.
  rewrite app_nil_r. reflexivity.
Qed.

(** What [remove_appendage] returns on a 1-D array that is long enough,
    for a positive padding. *)
Lemma remove_appendage_1d (l : list A) (config : FilterConfiguration) :
  (0 < appendage config)%Z ->
  Z.to_nat (appendage config) <= length l ->
  remove_appendage (Arr1 l) config =
    Ok (Arr1 (delete_positions l
                (seq 0 (Z.to_nat (appendage config))
                 ++ seq (length l - Z.to_nat (appendage config))
                      (Z.to_nat (appendage config))))).
Proof.
  intros Hb Hle. unfold remove_appendage. rewrite bind_Ok.
  rewrite slice_to_seq, slice_from_seq_negative by lia.
  unfold np_delete.
  match goal with |- (if ?c then _ else _) = _ => assert (Hall : c = true) end.
  { apply forallb_forall. intros i Hin. apply Nat.ltb_lt.
    apply in_app_or in Hin. destruct Hin as [Hin | Hin]; apply in_seq in Hin; lia. }
  rewrite Hall. reflexivity.
Qed.

(** Padding by [b >= 1] and removing it gives a non-empty 1-D array back. *)
Lemma remove_add_appendage_1d (l : list A) (config : FilterConfiguration) :
  l <> [] ->
  (0 < appendage config)%Z ->
  (padded <- add_appendage (Arr1 l) config ;; remove_appendage padded config)
  = Ok (Arr1 l).
Proof.
  intros Hne Hb. destruct l as [| a l]; [contradiction |].
  rewrite add_appendage_1d, bind_Ok by lia.
  set (b := Z.to_nat (appendage config)).
  rewrite remove_appendage_1d; fold b.
  - rewrite !length_app, !repeat_length.
    replace (b + (length (a :: l) + b) - b) with (b + length (a :: l)) by lia.
    rewrite delete_positions_appendage; [reflexivity | | ]; apply repeat_length.
  - exact Hb.
  - rewrite !length_app, !repeat_length. lia.
Qed.

(** With a padding of 0 nothing is added, and the removal deletes every
    sample: [indices[-0:]] is the whole list of positions. *)
Lemma remove_add_appendage_1d_zero (l : list A) (config : FilterConfiguration) :
  l <> [] ->
  appendage config = 0%Z ->
  add_appendage (Arr1 l) config = Ok (Arr1 l)
  /\ remove_appendage (Arr1 l) config = Ok (Arr1 []).
Proof.
  intros Hne Hb. split.
  - destruct l as [| a l]; [contradiction |].
    rewrite add_appendage_1d by lia. rewrite Hb. simpl.
    rewrite app_nil_r. reflexivity.
  - unfold remove_appendage. rewrite bind_Ok, Hb.
    rewrite slice_to_zero, slice_from_zero. simpl app.
    unfold np_delete.
    match goal with |- (if ?c then _ else _) = _ => assert (Hall : c = true) end.
    { apply forallb_forall. intros i Hin. apply Nat.ltb_lt.
      apply in_seq in Hin. lia. }
    rewrite Hall, delete_positions_everything. reflexivity.
Qed.

End RoundTrip.

Section RoundTrip2D.

Variable A : Type.

Lemma last_cell_singleton (row : list A) (d : A) :
  row <> [] -> last_cell row = [last row d].
Proof.
  unfold last_cell. induction row as [| a row IH]; intros Hne; [contradiction |].
  destruct row as [| a' row'].
  - reflexivity.
  - simpl length in *. simpl last.
    replace (S (S (length row')) - 1) with (S (S (length row') - 1)) by lia.
    simpl skipn. apply IH. discriminate.
Qed.

Lemma mapM_take_first (rows : list (list A)) :
  Forall (fun row => row <> []) rows ->
  mapM (fun row => np_take row 0) rows = Ok (flat_map first_cell rows)
  /\ new_axis (flat_map first_cell rows) = map first_cell rows.
Proof.
  induction 1 as [| row rows Hrow _ [IH1 IH2]]; [split; reflexivity |].
  destruct row as [| a row]; [contradiction |].
  cbn [mapM]. rewrite np_take_first, bind_Ok, IH1. simpl. rewrite IH2.
  split; reflexivity.
Qed.

Lemma mapM_take_last (rows : list (list A)) :
  Forall (fun row => row <> []) rows ->
  mapM (fun row => np_take row (-1)) rows = Ok (flat_map last_cell rows)
  /\ new_axis (flat_map last_cell rows) = map last_cell rows.
Proof.
  induction 1 as [| row rows Hrow _ [IH1 IH2]]; [split; reflexivity |].
  destruct row as [| a row]; [contradiction |].
  cbn [mapM flat_map map].
  rewrite (@np_take_last A (a :: row) a), bind_Ok, IH1 by discriminate.
  rewrite !(@last_cell_singleton (a :: row) a) by discriminate.
  split; [reflexivity |].
  unfold new_axis in *. cbn [app map]. rewrite IH2. reflexivity.
Qed.

Lemma zip_rows_map (f g : list A -> list A) (rows : list (list A)) :
  zip_rows (map f rows) (map g rows) = Ok (map (fun row => f row ++ g row) rows).
Proof.
  induction rows as [| row rows IH]; [reflexivity |].
  simpl. rewrite IH. reflexivity.
Qed.

Lemma zip_rows_map_self (f : list A -> list A) (rows : list (list A)) :
  zip_rows (map f rows) rows = Ok (map (fun row => f row ++ row) rows).
Proof.
  induction rows as [| row rows IH]; [reflexivity |].
  simpl. rewrite IH. reflexivity.
Qed.

Lemma rows_nonempty (ncols : nat) (rows : list (list A)) :
  0 < ncols ->
  Forall (fun row => length row = ncols) rows ->
  Forall (fun row => row <> []) rows.
Proof.
  intros Hpos Hall. apply Forall_forall. intros row Hin.
  rewrite Forall_forall in Hall. specialize (Hall row Hin).
  intros ->. simpl in Hall. lia.
Qed.

(** What [add_appendage] returns on an array with at least one column. *)
Lemma add_appendage_2d (ncols : nat) (rows : list (list A))
  (config : FilterConfiguration) :
  well_shaped (Arr2 ncols rows) ->
  0 < ncols ->
  (0 <= appendage config)%Z ->
  add_appendage (Arr2 ncols rows) config =
    Ok (Arr2 (Z.to_nat (appendage config) + ncols + Z.to_nat (appendage config))
          (map (pad_row (Z.to_nat (appendage config))) rows)).
Proof.
  intros Hshape Hpos Hb. simpl in Hshape.
  pose proof (rows_nonempty Hpos Hshape) as Hne.
  destruct (mapM_take_first Hne) as [Hfirst Hfirst'].
  destruct (mapM_take_last Hne) as [Hlast Hlast'].
  assert (Hidx : forall k, (k = 0 \/ k = -1)%Z ->
            exists i, normalize_index ncols k = Ok i).
  { intros k [-> | ->]; unfold normalize_index.
    - replace ((0 <=? 0)%Z && (0 <? Z.of_nat ncols)%Z) with true; [eauto |].
      symmetry. apply andb_true_intro. split; [reflexivity | apply Z.ltb_lt; lia].
    - replace ((0 <=? -1)%Z && (-1 <? Z.of_nat ncols)%Z) with false by reflexivity.
      replace ((- Z.of_nat ncols <=? -1)%Z && (-1 <? 0)%Z) with true; [eauto |].
      symmetry. apply andb_true_intro. split; [apply Z.leb_le; lia | reflexivity]. }
  assert (Htake : forall k, (k = 0 \/ k = -1)%Z ->
            np_take_axis1 ncols rows k = mapM (fun row => np_take row k) rows).
  { intros k Hk. destruct (Hidx k Hk) as [i Hi]. unfold np_take_axis1.
    destruct rows as [| row rows']; [reflexivity |]. rewrite Hi. reflexivity. }
  unfold add_appendage, np_repeat_axis1.
  rewrite (Htake 0%Z (or_introl eq_refl)), (Htake (-1)%Z (or_intror eq_refl)).
  destruct (Z.ltb_spec (appendage config) 0) as [Hneg | _]; [lia |].
  rewrite Hfirst, !bind_Ok, Hlast, !bind_Ok, Hfirst', Hlast'.
  unfold np_concatenate_axis1. rewrite !map_map.
  rewrite zip_rows_map_self, bind_Ok, zip_rows_map, bind_Ok. reflexivity.
Qed.

End RoundTrip2D.

Section RoundTrip2DRemoval.

Variable A : Type.

Lemma length_repeat_first_cell (b : nat) (row : list A) :
  row <> [] -> length (repeat_cells b (first_cell row)) = b.
Proof.
  destruct row as [| a row]; [contradiction |]. intros _.
  unfold repeat_cells, first_cell. simpl.
  rewrite app_nil_r. apply repeat_length.
Qed.

Lemma length_repeat_last_cell (b : nat) (row : list A) :
  row <> [] -> length (repeat_cells b (last_cell row)) = b.
Proof.
  destruct row as [| a row]; [contradiction |]. intros _.
  rewrite (@last_cell_singleton A (a :: row) a) by discriminate.
  unfold repeat_cells. simpl flat_map.
  rewrite app_nil_r. apply repeat_length.
Qed.

Lemma appendage_indices_NoDup (b n : nat) :
  NoDup (seq 0 b ++ seq (b + n) b).
Proof.
  apply NoDup_app; try apply seq_NoDup.
  intros i Hi Hi'. apply in_seq in Hi. apply in_seq in Hi'. lia.
Qed.

(** What [remove_appendage] returns on an array with enough columns, for
    a positive padding. *)
Lemma remove_appendage_2d (ncols : nat) (rows : list (list A))
  (config : FilterConfiguration) :
  let b := Z.to_nat (appendage config) in
  (0 < appendage config)%Z ->
  b + b <= ncols ->
  remove_appendage (Arr2 ncols rows) config =
    Ok (Arr2 (ncols - (b + b))
          (map (fun row => delete_positions row (seq 0 b ++ seq (ncols - b) b))
             rows)).
Proof.
  intros b Hb Hle. unfold remove_appendage. rewrite bind_Ok.
  rewrite slice_to_seq, slice_from_seq_negative by lia. fold b.
  unfold np_delete.
  match goal with |- (if ?c then _ else _) = _ => assert (Hall : c = true) end.
  { apply forallb_forall. intros i Hin. apply Nat.ltb_lt.
    apply in_app_or in Hin. destruct Hin as [Hin | Hin]; apply in_seq in Hin; lia. }
  rewrite Hall.
  replace (ncols - b) with (b + (ncols - (b + b))) by lia.
  rewrite nodup_fixed_point by apply appendage_indices_NoDup.
  rewrite length_app, !length_seq. reflexivity.
Qed.

(** Padding by [b >= 1] and removing it gives an array with at least one
    column back. *)
Lemma remove_add_appendage_2d (ncols : nat) (rows : list (list A))
  (config : FilterConfiguration) :
  well_shaped (Arr2 ncols rows) ->
  0 < ncols ->
  (0 < appendage config)%Z ->
  (padded <- add_appendage (Arr2 ncols rows) config ;;
   remove_appendage padded config)
  = Ok (Arr2 ncols rows).
Proof.
  intros Hshape Hpos Hb.
  rewrite add_appendage_2d, bind_Ok by (trivial; lia).
  set (b := Z.to_nat (appendage config)).
  rewrite remove_appendage_2d by (trivial; fold b; lia). fold b.
  f_equal. f_equal; [lia |].
  rewrite map_map. rewrite <- (map_id rows) at 2.
  apply map_ext_in. intros row Hin.
  simpl in Hshape. rewrite Forall_forall in Hshape.
  pose proof (Hshape row Hin) as Hlen.
  assert (Hne : row <> []) by (intros ->; simpl in Hlen; lia).
  unfold pad_row. rewrite <- app_assoc.
  replace (b + ncols + b - b) with (b + length row) by lia.
  apply delete_positions_appendage.
  - apply length_repeat_first_cell, Hne.
  - apply length_repeat_last_cell, Hne.
Qed.

End RoundTrip2DRemoval.

(** C1.  Padding and its removal are not inverse for a padding of 0: the
    padded array is the input, and the removal then deletes every sample
    (every column of a 2-D array) instead of none. *)
Theorem remove_add_appendage_zero :
  let config := FilterConfiguration__init__ 8 (1 / 20) 0 in
  add_appendage (Arr1 [1; 2; 3]%Z) config = Ok (Arr1 [1; 2; 3]%Z)
  /\ (padded <- add_appendage (Arr1 [1; 2; 3]%Z) config ;;
      remove_appendage padded config) = Ok (Arr1 [])
  /\ (padded <- add_appendage (Arr2 2 [[1; 2]; [3; 4]]%Z) config ;;
      remove_appendage padded config) = Ok (Arr2 0 [[]; []]).
Proof. repeat split. Qed.

End AppendageFacts.

(** ** The lever arm *)

Module LeverArmFacts.

Import Georeferencing.
Local Open Scope R_scope.

Section Hypotenuse.

Variables a b : R.
Hypothesis not_both_zero : ~ (a = 0 /\ b = 0).

Let c : R := sqrt (a * a + b * b).

Lemma sum_of_squares_positive : 0 < a * a + b * b.
Proof.
  destruct (Req_dec_T a 0) as [Ha | Ha].
  - destruct (Req_dec_T b 0) as [Hb | Hb].
    + exfalso. apply not_both_zero. split; assumption.
    + nra.
  - nra.
Qed.

Lemma hypotenuse_positive : 0 < c.
Proof. apply sqrt_lt_R0, sum_of_squares_positive. Qed.

Lemma hypotenuse_square : c * c = a * a + b * b.
Proof. apply sqrt_sqrt. pose proof sum_of_squares_positive. lra. Qed.

Lemma cosine_ratio_bounds : -1 <= b / c <= 1.
Proof.
  pose proof hypotenuse_positive as Hc.
  pose proof hypotenuse_square as Hcc.
  assert (Hb : b = b / c * c) by (field; lra).
  set (t := b / c) in *. clearbody t.
  assert (Hcc' : 0 < c * c) by nra.
  assert (Hbb : t * t * (c * c) <= 1 * (c * c)) by nra.
  apply Rmult_le_reg_r in Hbb; [| exact Hcc'].
  split; nra.
Qed.

(** The steps of [calculate_lever_arm] stay finite. *)
Lemma calculate_lever_arm_finite (arm0 angle : R) :
  calculate_lever_arm [Fin arm0; Fin a; Fin b] (Fin angle) =
    Ok [Fin (- arm0);
        Fin (c * sin (angle - acos (b / c)));
        Fin (- (c * cos (angle - acos (b / c))))].
Proof.
  pose proof sum_of_squares_positive as Hsum.
  pose proof hypotenuse_positive as Hc.
  destruct cosine_ratio_bounds as [Hlo Hhi].
  unfold calculate_lever_arm, getitem. cbn [nth_error bind].
  cbn [np_multiply np_add np_sqrt].
  rewrite Rlt_b_false by lra.
  cbn [np_divide]. fold c. rewrite Req_b_false by lra.
  cbn [np_arccos]. rewrite !Rle_b_true by assumption.
  reflexivity.
Qed.

End Hypotenuse.

(** Both perpendicular components zero: no error, two [NaN] components. *)
Lemma calculate_lever_arm_degenerate (arm0 angle : npfloat) :
  calculate_lever_arm [arm0; Fin 0; Fin 0] angle =
    Ok [np_negative arm0; NaN; NaN].
Proof.
  unfold calculate_lever_arm, getitem. cbn [nth_error bind].
  cbn [np_multiply np_add np_sqrt].
  replace (0 * 0 + 0 * 0) with 0 by ring.
  rewrite Rlt_b_false by lra. rewrite sqrt_0.
  cbn [np_divide]. rewrite Req_b_true by reflexivity.
  cbn [np_arccos]. unfold np_subtract. cbn [np_negative].
  rewrite np_add_NaN_r. reflexivity.
Qed.

(** C6.  For a finite arm whose perpendicular components are not both
    zero and a finite angle, the resolver returns [-arm[0]],
    [c sin(phi)], [-c cos(phi)] with [c] the hypotenuse, [alpha] the
    arccosine of [arm[2] / c] and [phi = angle - alpha]. *)
Theorem calculate_lever_arm_closed_form (arm0 a b angle : R) :
  ~ (a = 0 /\ b = 0) ->
  let c := sqrt (a * a + b * b) in
  let alpha := acos (b / c) in
  let phi := angle - alpha in
  calculate_lever_arm [Fin arm0; Fin a; Fin b] (Fin angle) =
    Ok [Fin (- arm0); Fin (c * sin phi); Fin (- (c * cos phi))].
Proof. intros H c alpha phi. apply calculate_lever_arm_finite, H. Qed.

Lemma calculate_lever_arm_closed_form_witness :
  ~ (3 = 0 /\ 4 = 0)
  /\ calculate_lever_arm [Fin 1; Fin 3; Fin 4] (Fin 2) =
       Ok [Fin (- 1);
           Fin (sqrt (3 * 3 + 4 * 4)
                * sin (2 - acos (4 / sqrt (3 * 3 + 4 * 4))));
           Fin (- (sqrt (3 * 3 + 4 * 4)
                   * cos (2 - acos (4 / sqrt (3 * 3 + 4 * 4)))))].
Proof.
  assert (H : ~ (3 = 0 /\ 4 = 0)) by (intros [H _]; lra).
  split; [exact H | apply (calculate_lever_arm_closed_form 1 2 H)].
Defined.




(** C3, as the code has it.  With both perpendicular components zero the
    resolver raises nothing: it returns [-arm[0]] and two [NaN]. *)
Theorem calculate_lever_arm_degenerate_returns (arm0 angle : npfloat) :
  calculate_lever_arm [arm0; Fin 0; Fin 0] angle =
    Ok [np_negative arm0; NaN; NaN]
  /\ returns (calculate_lever_arm [arm0; Fin 0; Fin 0] angle).
Proof.
  split; [apply calculate_lever_arm_degenerate |].
  eexists. apply calculate_lever_arm_degenerate.
Qed.

(** C3 as stated fails on the arm (1, 0, 0): a result is returned. *)
Lemma calculate_lever_arm_degenerate_counterexample :
  calculate_lever_arm [Fin 1; Fin 0; Fin 0] (Fin 0) = Ok [Fin (- 1); NaN; NaN]
  /\ ~ (exists e, calculate_lever_arm [Fin 1; Fin 0; Fin 0] (Fin 0) = Raise e).
Proof.
  split; [apply calculate_lever_arm_degenerate |].
  intros [e He]. rewrite calculate_lever_arm_degenerate in He. discriminate He.
Qed.

End LeverArmFacts.

(** ** Trajectories *)

Module TrajectoryFacts.

Import Georeferencing.
Local Open Scope R_scope.

Section Lists.

Variables X Y Z : Type.

Lemma broadcast2_same_length (f : X -> Y -> Z) (xs : list X) (ys : list Y) :
  length xs = length ys -> broadcast2 f xs ys = Ok (map2 f xs ys).
Proof.
  intros H. unfold broadcast2. rewrite H, Nat.eqb_refl. reflexivity.
Qed.

Lemma length_map2 (f : X -> Y -> Z) (xs : list X) :
  forall ys, length (map2 f xs ys) = Nat.min (length xs) (length ys).
Proof.
  induction xs as [| x xs IH]; intros [| y ys]; simpl; try reflexivity.
  f_equal. apply IH.
Qed.


End Lists.



Lemma length_vector_to_quaternion (vs : list vec3) :
  length (vector_to_quaternion vs) = length vs.
Proof. apply length_map. Qed.

Lemma length_quaternion_to_vector (qs : list quaternion) :
  length (quaternion_to_vector qs) = length qs.
Proof. apply length_map. Qed.

Lemma length_as_quat_array (rows : list row4) :
  length (as_quat_array rows) = length rows.
Proof. apply length_map. Qed.

Lemma length_unit_directions (positions : list vec3) :
  length (unit_directions positions) = length positions.
Proof. apply length_map. Qed.

Ltac lengths :=
  repeat first
    [ rewrite length_quaternion_to_vector
    | rewrite length_vector_to_quaternion
    | rewrite length_as_quat_array
    | rewrite length_unit_directions
    | rewrite length_map2
    | rewrite length_map ];
  lia.






Section Georeference.

(** [utilities.axis_angle] *)
Variable axis_angle : vec3 -> R -> quaternion.




(** The stage on a trajectory with a first transducer sample. *)
Lemma georeference_trajectories_nonempty (cam_positions : list vec3)
  (cam_attitudes : list row4) (trans_positions : list vec3)
  (init_position init_attitude : vec3) :
  trans_positions <> [] ->
  let rotation := initial_rotation axis_angle init_attitude in
  exists trans_init,
    nth_error (rotate_positions rotation trans_positions) 0 = Some trans_init
    /\ georeference_trajectories axis_angle cam_positions cam_attitudes
         trans_positions init_position init_attitude
       = Ok (translate (rotate_positions rotation cam_positions)
               trans_init init_position,
             rotate_attitudes rotation cam_attitudes,
             translate (rotate_positions rotation trans_positions)
               trans_init init_position).
Proof.
  intros Hne rotation. destruct trans_positions as [| p ps]; [contradiction |].
  eexists. split; reflexivity.
Qed.


(** C9, as the code has it.  The translation step subtracts the first
    rotated transducer position from, and adds the initial position to,
    every rotated camera and transducer position alike; the attitudes
    returned are those of the rotation step, whatever initial position is
    supplied. *)
Theorem georeference_translation_frame (cam_positions : list vec3)
  (cam_attitudes : list row4) (trans_positions : list vec3)
  (init_position init_attitude : vec3) :
  trans_positions <> [] ->
  let rotation := initial_rotation axis_angle init_attitude in
  exists trans_init cam_positions' cam_attitudes' trans_positions',
    nth_error (rotate_positions rotation trans_positions) 0 = Some trans_init
    /\ georeference_trajectories axis_angle cam_positions cam_attitudes
         trans_positions init_position init_attitude
       = Ok (cam_positions', cam_attitudes', trans_positions')
    /\ (forall i c,
           nth_error (rotate_positions rotation cam_positions) i = Some c ->
           nth_error cam_positions' i
           = Some (vadd (vsub c trans_init) init_position))
    /\ (forall i t,
           nth_error (rotate_positions rotation trans_positions) i = Some t ->
           nth_error trans_positions' i
           = Some (vadd (vsub t trans_init) init_position))
    /\ cam_attitudes' = rotate_attitudes rotation cam_attitudes
    /\ forall other_position,
        exists cam_positions'' trans_positions'',
          georeference_trajectories axis_angle cam_positions cam_attitudes
            trans_positions other_position init_attitude
          = Ok (cam_positions'', cam_attitudes', trans_positions'').
Proof.
  intros Hne rotation.
  destruct (georeference_trajectories_nonempty cam_positions cam_attitudes
              init_position init_attitude Hne) as [t0 [Ht0 Hgeo]].
  fold rotation in Ht0, Hgeo.
  exists t0. do 3 eexists.
  split; [exact Ht0 |]. split; [exact Hgeo |]. split; [| split; [| split]].
  - intros i c Hc. unfold translate.
    apply (map_nth_error (fun p => vadd (vsub p t0) init_position) _ _ Hc).
  - intros i t Ht. unfold translate.
    apply (map_nth_error (fun p => vadd (vsub p t0) init_position) _ _ Ht).
  - reflexivity.
  - intros other_position.
    destruct (georeference_trajectories_nonempty cam_positions cam_attitudes
                other_position init_attitude Hne) as [t1 [_ Hgeo']].
    do 2 eexists. exact Hgeo'.
Qed.

End Georeference.


Lemma georeference_translation_frame_witness :
  let identity := fun (_ : vec3) (_ : R) => quat 1 0 0 0 in
  [(0, 0, 1); (1, 0, 1)] <> []
  /\ exists cam_positions' cam_attitudes' trans_positions',
      georeference_trajectories identity [(0, 0, 0); (1, 0, 0)]
        [(1, 0, 0, 0); (1, 0, 0, 0)] [(0, 0, 1); (1, 0, 1)]
        (10, 20, 30) (0, 0, 0)
      = Ok (cam_positions', cam_attitudes', trans_positions')
      /\ cam_attitudes' =
           rotate_attitudes (initial_rotation identity (0, 0, 0))
             [(1, 0, 0, 0); (1, 0, 0, 0)].
Proof.
  intros identity.
  assert (Hne : [(0, 0, 1); (1, 0, 1)] <> ([] : list vec3)) by discriminate.
  split; [exact Hne |].
  destruct (georeference_translation_frame identity
              [(0, 0, 0); (1, 0, 0)] [(1, 0, 0, 0); (1, 0, 0, 0)]
              (10, 20, 30) (0, 0, 0) Hne)
    as [t0 [cam' [att' [trans' [_ [Hgeo [_ [_ [Hatt _]]]]]]]]].
  exists cam', att', trans'. split; [exact Hgeo | exact Hatt].
Defined.

End TrajectoryFacts.

(** ** The translation step in float64 arithmetic *)

Module TranslationFloat64.

Import Georeferencing.
Import PrimFloat.

(* Decimal literals stand for the nearest binary64 value, as in Python. *)
Set Warnings "-inexact-float".

(** C9 as stated fails in float64 arithmetic: with an initial position at
    the scale of UTM coordinates, the difference between the translated
    transducer and camera positions of sample 1 is not the difference
    between the rotated ones (0.8000000007450581 against 0.8 on the first
    axis). *)
Lemma georeference_translation_frame_counterexample :
  let trans_rotated := [(0.4, -1.2, 0.3); (1.3, 0.5, -0.5)]%float in
  let cam_rotated := [(0.1, 0.2, 0.3); (0.5, 0.25, -0.75)]%float in
  let init_position := (7034512.866827283, 598765.4321, 312.5)%float in
  exists trans_init t c t' c',
    nth_error trans_rotated 0 = Some trans_init
    /\ nth_error trans_rotated 1 = Some t
    /\ nth_error cam_rotated 1 = Some c
    /\ nth_error (translate_f64 trans_rotated trans_init init_position) 1
       = Some t'
    /\ nth_error (translate_f64 cam_rotated trans_init init_position) 1
       = Some c'
    /\ veqb_f64 (vsub_f64 t' c') (vsub_f64 t c) = false.
Proof.
  intros trans_rotated cam_rotated init_position.
  do 5 eexists. repeat split; reflexivity.
Qed.

End TranslationFloat64.

(** * Further properties *)

(** ** Padding: shape, errors and what the removal keeps *)

Module AppendageMore.

Import Filters AppendageFacts.

Section OneDimension.

Variable A : Type.

(** X1.  The padded array: [b] copies of the first sample, the samples, [b]
    copies of the last sample. *)
Theorem add_appendage_1d_layout (a : A) (l : list A)
  (config : FilterConfiguration) :
  (0 <= appendage config)%Z ->
  let b := Z.to_nat (appendage config) in
  let n := length (a :: l) in
  exists padded,
    add_appendage (Arr1 (a :: l)) config = Ok (Arr1 padded)
    /\ length padded = b + n + b
    /\ (forall i, i < b -> nth_error padded i = Some a)
    /\ (forall i, i < n -> nth_error padded (b + i) = nth_error (a :: l) i)
    /\ (forall i, i < b -> nth_error padded (b + n + i) = Some (last (a :: l) a)).
Proof.
  intros Hb b n. eexists. split; [apply add_appendage_1d, Hb |]. fold b.
  assert (Hrep : forall (x : A) i, i < b -> nth_error (repeat x b) i = Some x).
  { intros x i Hi. rewrite nth_error_repeat by exact Hi. reflexivity. }
  split; [| split; [| split]].
  - rewrite !length_app, !repeat_length. fold n. lia.
  - intros i Hi. rewrite nth_error_app1 by (rewrite repeat_length; exact Hi).
    apply Hrep, Hi.
  - intros i Hi. rewrite nth_error_app2 by (rewrite repeat_length; lia).
    rewrite repeat_length. replace (b + i - b) with i by lia.
    apply nth_error_app1. exact Hi.
  - intros i Hi. rewrite nth_error_app2 by (rewrite repeat_length; lia).
    rewrite repeat_length. replace (b + n + i - b) with (n + i) by lia.
    rewrite nth_error_app2 by (fold n; lia).
    fold n. replace (n + i - n) with i by lia. apply Hrep, Hi.
Qed.

(** X2.  Padding by at least one sample and removing it gives a non-empty 1-D
    array back. *)
Theorem remove_add_appendage_1d_inverse (l : list A)
  (config : FilterConfiguration) :
  l <> [] ->
  (0 < appendage config)%Z ->
  (padded <- add_appendage (Arr1 l) config ;; remove_appendage padded config)
  = Ok (Arr1 l).
Proof. apply remove_add_appendage_1d. Qed.

(** X4.  Nothing to replicate: the padding raises, whatever the count, on an
    empty 1-D array, on a 0-dimensional array and on an array that has rows
    but no column. *)
Theorem add_appendage_raises_without_samples (config : FilterConfiguration) :
  add_appendage (Arr1 ([] : list A)) config = Raise IndexError
  /\ (forall x : A, add_appendage (Arr0 x) config = Raise AxisError)
  /\ (forall (row : list A) (rows : list (list A)),
         add_appendage (Arr2 0 (row :: rows)) config = Raise IndexError).
Proof. repeat split. Qed.

(** X5.  A negative count makes the padding of a non-empty array raise
    [ValueError]. *)
Theorem add_appendage_negative (a : A) (l : list A)
  (config : FilterConfiguration) :
  (appendage config < 0)%Z ->
  add_appendage (Arr1 (a :: l)) config = Raise ValueError.
Proof.
  intros Hb. unfold add_appendage. rewrite np_take_first, bind_Ok.
  unfold np_repeat. destruct (Z.ltb_spec (appendage config) 0) as [_ | Hge]; [| lia].
  reflexivity.
Qed.

(** The positions the removal deletes. *)
Lemma removal_indices (n : nat) (k : Z) :
  (0 < k)%Z ->
  let m := Nat.min (Z.to_nat k) n in
  slice_to (seq 0 n) k ++ slice_from (seq 0 n) (- k)
  = seq 0 m ++ seq (n - m) m.
Proof.
  intros Hk m. unfold slice_to, slice_from, slice_bound.
  rewrite length_seq.
  destruct (Z.ltb_spec k 0) as [Hneg | _]; [lia |].
  destruct (Z.ltb_spec (- k) 0) as [_ | Hpos]; [| lia].
  fold m. f_equal.
  - replace n with (m + (n - m)) at 1 by lia.
    rewrite seq_app, firstn_app, length_seq, Nat.sub_diag.
    rewrite firstn_all2 by (rewrite length_seq; lia).
    simpl. apply app_nil_r.
  - rewrite skipn_seq. f_equal; lia.
Qed.

Lemma delete_both_ends (l : list A) (m : nat) :
  m <= length l ->
  delete_positions l (seq 0 m ++ seq (length l - m) m)
  = firstn (length l - 2 * m) (skipn m l).
Proof.
  intros Hm. set (n := length l).
  set (mid := firstn (n - 2 * m) (skipn m l)).
  assert (Hsplit : l = firstn m l ++ mid ++ skipn (n - 2 * m) (skipn m l)).
  { unfold mid. rewrite firstn_skipn, firstn_skipn. reflexivity. }
  assert (Hl1 : length (firstn m l) = m) by (apply firstn_length_le; exact Hm).
  assert (Hl2 : length mid = n - 2 * m).
  { unfold mid. rewrite firstn_length_le; [reflexivity |].
    rewrite length_skipn. fold n. lia. }
  assert (Hl3 : length (skipn (n - 2 * m) (skipn m l)) = n - m - (n - 2 * m)).
  { rewrite !length_skipn. fold n. lia. }
  rewrite Hsplit at 1.
  rewrite delete_positions_kept_from, !kept_from_app.
  rewrite kept_from_all, kept_from_none, kept_from_all.
  - simpl. apply app_nil_r.
  - intros i Hi. rewrite Hl1, Hl2, Hl3 in Hi.
    apply in_or_app. right. apply in_seq. lia.
  - intros i Hi Hin. rewrite Hl1, Hl2 in Hi. apply in_app_or in Hin.
    destruct Hin as [Hin | Hin]; apply in_seq in Hin; lia.
  - intros i Hi. rewrite Hl1 in Hi. apply in_or_app. left. apply in_seq. lia.
Qed.

(** X6.  For a positive padding the removal keeps [data[b : n - b]], nothing when
    the array is shorter than [2 b], and does not raise. *)
Theorem remove_appendage_1d_keeps_middle (l : list A)
  (config : FilterConfiguration) :
  (0 < appendage config)%Z ->
  let b := Z.to_nat (appendage config) in
  remove_appendage (Arr1 l) config
  = Ok (Arr1 (firstn (length l - 2 * b) (skipn b l))).
Proof.
  intros Hb b. unfold remove_appendage. rewrite bind_Ok.
  rewrite removal_indices by exact Hb. fold b.
  set (m := Nat.min b (length l)).
  unfold np_delete.
  match goal with |- (if ?c then _ else _) = _ => assert (Hall : c = true) end.
  { apply forallb_forall. intros i Hin. apply Nat.ltb_lt.
    apply in_app_or in Hin. destruct Hin as [Hin | Hin]; apply in_seq in Hin; lia. }
  rewrite Hall, delete_both_ends by lia.
  do 2 f_equal.
  destruct (Nat.le_gt_cases b (length l)) as [Hle | Hgt].
  - replace m with b by lia. reflexivity.
  - replace m with (length l) by lia.
    rewrite !skipn_all2 by lia. rewrite !firstn_nil. reflexivity.
Qed.

End OneDimension.

Lemma add_appendage_1d_layout_witness :
  let config := FilterConfiguration__init__ 8 (1 / 20) 2 in
  (0 <= appendage config)%Z
  /\ exists padded,
      add_appendage (Arr1 [5; 6; 7]%Z) config = Ok (Arr1 padded)
      /\ length padded = 7.
Proof.
  intros config.
  assert (Hb : (0 <= appendage config)%Z) by (simpl; lia).
  split; [exact Hb |].
  destruct (@add_appendage_1d_layout Z 5%Z [6; 7]%Z config Hb)
    as [padded [Hpad [Hlen _]]].
  exists padded. split; [exact Hpad | exact Hlen].
Defined.

Lemma remove_add_appendage_1d_inverse_witness :
  let config := FilterConfiguration__init__ 8 (1 / 20) 10 in
  [5; 6; 7]%Z <> []
  /\ (0 < appendage config)%Z
  /\ (padded <- add_appendage (Arr1 [5; 6; 7]%Z) config ;;
      remove_appendage padded config) = Ok (Arr1 [5; 6; 7]%Z).
Proof.
  intros config.
  assert (Hne : [5; 6; 7]%Z <> []) by discriminate.
  assert (Hb : (0 < appendage config)%Z) by (simpl; lia).
  split; [exact Hne | split; [exact Hb |]].
  apply remove_add_appendage_1d_inverse; assumption.
Defined.

Lemma add_appendage_negative_witness :
  let config := FilterConfiguration__init__ 8 (1 / 20) (-1) in
  (appendage config < 0)%Z
  /\ add_appendage (Arr1 [5; 6; 7]%Z) config = Raise ValueError.
Proof.
  intros config.
  assert (Hb : (appendage config < 0)%Z) by (simpl; lia).
  split; [exact Hb | apply add_appendage_negative; exact Hb].
Defined.

Lemma remove_appendage_1d_keeps_middle_witness :
  let config := FilterConfiguration__init__ 8 (1 / 20) 2 in
  (0 < appendage config)%Z
  /\ remove_appendage (Arr1 [1; 2; 3; 4; 5]%Z) config = Ok (Arr1 [3]%Z)
  /\ remove_appendage (Arr1 [1; 2; 3]%Z) config = Ok (Arr1 []).
Proof.
  intros config.
  assert (Hb : (0 < appendage config)%Z) by (simpl; lia).
  split; [exact Hb | split].
  - apply (@remove_appendage_1d_keeps_middle Z [1; 2; 3; 4; 5]%Z config Hb).
  - apply (@remove_appendage_1d_keeps_middle Z [1; 2; 3]%Z config Hb).
Defined.

Section Removal.

Variable A : Type.

Lemma length_kept_from (l : list A) (indices : list nat) :
  forall s, length (kept_from s l indices) <= length l.
Proof.
  induction l as [| a l IH]; intros s; [apply Nat.le_refl |].
  rewrite kept_from_cons, length_app. specialize (IH (S s)).
  destruct (existsb (Nat.eqb s) indices); simpl; lia.
Qed.

Lemma slice_of_seq_in_range (n : nat) (k : Z) (i : nat) :
  In i (slice_to (seq 0 n) k) \/ In i (slice_from (seq 0 n) k) -> i < n.
Proof.
  intros H.
  assert (Hin : In i (seq 0 n)).
  { destruct H as [H | H]; unfold slice_to, slice_from in H.
    - rewrite <- (firstn_skipn (slice_bound (length (seq 0 n)) k) (seq 0 n)).
      apply in_or_app. left. exact H.
    - rewrite <- (firstn_skipn (slice_bound (length (seq 0 n)) k) (seq 0 n)).
      apply in_or_app. right. exact H. }
  apply in_seq in Hin. lia.
Qed.

(** X7.  Whatever the padding count, negative ones included, the removal on a
    1-D array does not raise and returns at most as many samples. *)
Theorem remove_appendage_1d_returns (l : list A) (config : FilterConfiguration) :
  exists l',
    remove_appendage (Arr1 l) config = Ok (Arr1 l')
    /\ length l' <= length l.
Proof.
  unfold remove_appendage. rewrite bind_Ok. unfold np_delete.
  match goal with |- exists _, (if ?c then _ else _) = _ /\ _ =>
    assert (Hall : c = true) end.
  { apply forallb_forall. intros i Hin. apply Nat.ltb_lt.
    apply in_app_or in Hin.
    destruct Hin as [Hin | Hin];
      eapply slice_of_seq_in_range; [left | right]; exact Hin. }
  rewrite Hall. eexists. split; [reflexivity |].
  rewrite delete_positions_kept_from. apply length_kept_from.
Qed.

(** X8.  With a padding of 0 the removal deletes every sample of a 1-D array and
    every column of a 2-D array. *)
Theorem remove_appendage_zero_deletes_all (config : FilterConfiguration) :
  appendage config = 0%Z ->
  (forall l : list A, remove_appendage (Arr1 l) config = Ok (Arr1 []))
  /\ (forall ncols (rows : list (list A)),
         well_shaped (Arr2 ncols rows) ->
         remove_appendage (Arr2 ncols rows) config
         = Ok (Arr2 0 (map (fun _ => []) rows))).
Proof.
  intros Hb. split.
  - intros l. unfold remove_appendage. rewrite bind_Ok, Hb.
    rewrite slice_to_zero, slice_from_zero. simpl app. unfold np_delete.
    match goal with |- (if ?c then _ else _) = _ => assert (Hall : c = true) end.
    { apply forallb_forall. intros i Hin. apply Nat.ltb_lt.
      apply in_seq in Hin. lia. }
    rewrite Hall, delete_positions_everything. reflexivity.
  - intros ncols rows Hshape. unfold remove_appendage. rewrite bind_Ok, Hb.
    rewrite slice_to_zero, slice_from_zero. simpl app. unfold np_delete.
    match goal with |- (if ?c then _ else _) = _ => assert (Hall : c = true) end.
    { apply forallb_forall. intros i Hin. apply Nat.ltb_lt.
      apply in_seq in Hin. lia. }
    rewrite Hall, nodup_fixed_point by apply seq_NoDup.
    rewrite length_seq, Nat.sub_diag. do 2 f_equal.
    apply map_ext_in. intros row Hin.
    simpl in Hshape. rewrite Forall_forall in Hshape.
    rewrite <- (Hshape row Hin). apply delete_positions_everything.
Qed.

(** X3.  Padding by at least one column and removing it gives an array with at
    least one column back. *)
Theorem remove_add_appendage_2d_inverse (ncols : nat) (rows : list (list A))
  (config : FilterConfiguration) :
  well_shaped (Arr2 ncols rows) ->
  0 < ncols ->
  (0 < appendage config)%Z ->
  (padded <- add_appendage (Arr2 ncols rows) config ;;
   remove_appendage padded config)
  = Ok (Arr2 ncols rows).
Proof. apply remove_add_appendage_2d. Qed.

(** The padded 2-D array keeps its rows and gains [2 b] columns. *)
Theorem add_appendage_2d_shape (ncols : nat) (rows : list (list A))
  (config : FilterConfiguration) :
  well_shaped (Arr2 ncols rows) ->
  0 < ncols ->
  (0 <= appendage config)%Z ->
  let b := Z.to_nat (appendage config) in
  exists rows',
    add_appendage (Arr2 ncols rows) config = Ok (Arr2 (b + ncols + b) rows')
    /\ length rows' = length rows
    /\ well_shaped (Arr2 (b + ncols + b) rows').
Proof.
  intros Hshape Hpos Hb b. eexists.
  split; [apply add_appendage_2d; assumption |]. fold b.
  split; [apply length_map |].
  simpl. apply Forall_map. simpl in Hshape.
  rewrite Forall_forall in *. intros row Hin.
  pose proof (Hshape row Hin) as Hlen.
  assert (Hne : row <> []) by (intros ->; simpl in Hlen; lia).
  unfold pad_row. rewrite !length_app.
  rewrite length_repeat_first_cell, length_repeat_last_cell by exact Hne.
  lia.
Qed.

End Removal.

Lemma remove_appendage_zero_deletes_all_witness :
  let config := FilterConfiguration__init__ 8 (1 / 20) 0 in
  appendage config = 0%Z
  /\ remove_appendage (Arr1 [5; 6; 7]%Z) config = Ok (Arr1 []).
Proof.
  intros config.
  assert (Hb : appendage config = 0%Z) by reflexivity.
  split; [exact Hb |].
  apply (proj1 (@remove_appendage_zero_deletes_all Z config Hb)).
Defined.

Lemma remove_add_appendage_2d_inverse_witness :
  let config := FilterConfiguration__init__ 8 (1 / 20) 10 in
  let rows := [[1; 2]; [3; 4]; [5; 6]]%Z in
  well_shaped (Arr2 2 rows)
  /\ 0 < 2
  /\ (0 < appendage config)%Z
  /\ (padded <- add_appendage (Arr2 2 rows) config ;;
      remove_appendage padded config) = Ok (Arr2 2 rows).
Proof.
  intros config rows.
  assert (Hshape : well_shaped (Arr2 2 rows)) by (repeat constructor).
  assert (Hpos : 0 < 2) by lia.
  assert (Hb : (0 < appendage config)%Z) by (simpl; lia).
  split; [exact Hshape | split; [exact Hpos | split; [exact Hb |]]].
  apply remove_add_appendage_2d_inverse; assumption.
Defined.

Lemma add_appendage_2d_shape_witness :
  let config := FilterConfiguration__init__ 8 (1 / 20) 10 in
  let rows := [[1; 2]; [3; 4]; [5; 6]]%Z in
  well_shaped (Arr2 2 rows)
  /\ 0 < 2
  /\ (0 <= appendage config)%Z
  /\ exists rows',
      add_appendage (Arr2 2 rows) config = Ok (Arr2 22 rows')
      /\ length rows' = 3.
Proof.
  intros config rows.
  assert (Hshape : well_shaped (Arr2 2 rows)) by (repeat constructor).
  assert (Hpos : 0 < 2) by lia.
  assert (Hb : (0 <= appendage config)%Z) by (simpl; lia).
  split; [exact Hshape | split; [exact Hpos | split; [exact Hb |]]].
  destruct (@add_appendage_2d_shape Z 2 rows config Hshape Hpos Hb)
    as [rows' [Hpad [Hlen _]]].
  exists rows'. split; [exact Hpad | exact Hlen].
Defined.

End AppendageMore.

(** ** The Kaiser-window variant *)

Module KaiserFacts.

Import Filters.

Lemma number_truediv_finite (x y : number) (vx vy : R) :
  number_value x = Fin vx ->
  number_value y = Fin vy ->
  vy <> 0%R ->
  exists q, number_truediv x y = Ok q /\ number_value q = Fin (vx / vy).
Proof.
  intros Hx Hy Hne.
  assert (Hdiv : np_divide (number_value x) (number_value y) = Fin (vx / vy)).
  { rewrite Hx, Hy. simpl. rewrite Req_b_false by exact Hne. reflexivity. }
  assert (Hzero : is_zero (number_value y) = false).
  { rewrite Hy. simpl. apply Req_b_false, Hne. }
  unfold number_truediv.
  destruct x as [zx | fx | fx], y as [zy | fy | fy];
    rewrite ?Hzero; eexists; (split; [reflexivity | exact Hdiv]).
Qed.

Section Kaiser.

Variables A B coefficients shape : Type.
Variable kaiserord : number -> number -> result (Z * shape).
Variable firwin_kaiser : Z -> number -> shape -> result coefficients.
Variable lfilter : coefficients -> R -> ndarray A -> Z -> result (ndarray B).

(** X9.  A sample time that is a Python zero stops the call with
    [ZeroDivisionError] before any [scipy] function is reached. *)
Theorem FIR_filter_kaiser_zero_sample_time (data : ndarray A)
  (sample_time attenuation transition cutoff : number) (axis : Z) :
  sample_time = PyInt 0 \/ sample_time = PyFloat (Fin 0) ->
  FIR_filter_kaiser kaiserord firwin_kaiser lfilter data sample_time
    attenuation transition cutoff axis
  = Raise ZeroDivisionError.
Proof.
  intros [-> | ->]; unfold FIR_filter_kaiser, number_truediv; simpl;
    rewrite Req_b_true by reflexivity; reflexivity.
Qed.

(** X10.  For a finite non-zero sample time no division fails: the window
    is designed for the width [transition / ((1 / sample_time) / 2)] and
    the filter for the cutoff [cutoff / ((1 / sample_time) / 2)], and the
    data is filtered along the axis the caller gives, also when it is
    1-D. *)
Theorem FIR_filter_kaiser_normalised (data : ndarray A)
  (sample_time attenuation transition cutoff : number) (axis : Z)
  (st tf cf : R) :
  number_value sample_time = Fin st ->
  number_value transition = Fin tf ->
  number_value cutoff = Fin cf ->
  st <> 0%R ->
  exists width cutoff',
    number_value width = Fin (tf / (1 / st / 2))
    /\ number_value cutoff' = Fin (cf / (1 / st / 2))
    /\ FIR_filter_kaiser kaiserord firwin_kaiser lfilter data sample_time
         attenuation transition cutoff axis
       = (design <- kaiserord attenuation width ;;
          let '(order, beta) := design in
          filter <- firwin_kaiser order cutoff' beta ;;
          lfilter filter 1%R data axis).
Proof.
  intros Hst Htf Hcf Hne.
  destruct (@number_truediv_finite (PyInt 1) sample_time 1 st eq_refl Hst Hne)
    as [fs [Hfs Hfsv]].
  assert (Hfs0 : (1 / st <> 0)%R).
  { unfold Rdiv. rewrite Rmult_1_l. apply Rinv_neq_0_compat, Hne. }
  assert (H2 : (2 <> 0)%R) by lra.
  destruct (@number_truediv_finite fs (PyFloat (Fin 2)) _ 2 Hfsv eq_refl H2)
    as [nyq [Hnyq Hnyqv]].
  assert (Hnyq0 : (1 / st / 2 <> 0)%R).
  { intros H. apply Hfs0. lra. }
  destruct (number_truediv_finite transition nyq Htf Hnyqv Hnyq0)
    as [width [Hw Hwv]].
  destruct (number_truediv_finite cutoff nyq Hcf Hnyqv Hnyq0)
    as [cutoff' [Hc Hcv]].
  exists width, cutoff'. split; [exact Hwv | split; [exact Hcv |]].
  unfold FIR_filter_kaiser. rewrite Hfs, bind_Ok, Hnyq, bind_Ok, Hw, bind_Ok.
  destruct (kaiserord attenuation width) as [[order beta] | e];
    [| reflexivity].
  rewrite !bind_Ok, Hc, bind_Ok. reflexivity.
Qed.

End Kaiser.

Lemma FIR_filter_kaiser_zero_sample_time_witness :
  let kaiserord := fun (_ _ : number) => Ok (8%Z, tt) in
  let firwin_kaiser := fun (_ : Z) (_ : number) (_ : unit) => Ok tt in
  let lfilter := fun (_ : unit) (_ : R) (x : ndarray Z) (_ : Z) => Ok x in
  (PyInt 0 = PyInt 0 \/ PyInt 0 = PyFloat (Fin 0))
  /\ FIR_filter_kaiser kaiserord firwin_kaiser lfilter (Arr1 [1; 2]%Z)
       (PyInt 0) (PyFloat (Fin 60)) (PyFloat (Fin 1)) (PyFloat (Fin 5)) 0
     = Raise ZeroDivisionError.
Proof.
  intros kaiserord firwin_kaiser lfilter.
  assert (H : PyInt 0 = PyInt 0 \/ PyInt 0 = PyFloat (Fin 0))
    by (left; reflexivity).
  split; [exact H |].
  apply FIR_filter_kaiser_zero_sample_time. exact H.
Defined.

Lemma FIR_filter_kaiser_normalised_witness :
  let kaiserord := fun (_ _ : number) => Ok (8%Z, tt) in
  let firwin_kaiser := fun (_ : Z) (_ : number) (_ : unit) => Ok tt in
  let lfilter := fun (_ : unit) (_ : R) (x : ndarray Z) (_ : Z) => Ok x in
  number_value (NpFloat64 (Fin (1 / 100))) = Fin (1 / 100)
  /\ number_value (PyFloat (Fin 1)) = Fin 1
  /\ number_value (PyInt 5) = Fin 5
  /\ (1 / 100 <> 0)%R
  /\ FIR_filter_kaiser kaiserord firwin_kaiser lfilter (Arr1 [1; 2]%Z)
       (NpFloat64 (Fin (1 / 100))) (PyFloat (Fin 60)) (PyFloat (Fin 1))
       (PyInt 5) 0
     = Ok (Arr1 [1; 2]%Z).
Proof.
  intros kaiserord firwin_kaiser lfilter.
  assert (Hne : (1 / 100 <> 0)%R) by lra.
  split; [reflexivity | split; [reflexivity | split; [reflexivity |]]].
  split; [exact Hne |].
  destruct (@FIR_filter_kaiser_normalised Z Z unit unit kaiserord firwin_kaiser
              lfilter (Arr1 [1; 2]%Z) (NpFloat64 (Fin (1 / 100)))
              (PyFloat (Fin 60)) (PyFloat (Fin 1)) (PyInt 5) 0
              (1 / 100) 1 5 eq_refl eq_refl eq_refl Hne)
    as [width [cutoff' [_ [_ Hrun]]]].
  exact Hrun.
Defined.

End KaiserFacts.

(** ** More on the lever arm *)

Module LeverArmMore.

Import Georeferencing LeverArmFacts.
Local Open Scope R_scope.

(** X11.  An arm with fewer than three entries raises [IndexError]. *)
Theorem calculate_lever_arm_short_arm (arm : list npfloat) (angle : npfloat) :
  (length arm < 3)%nat ->
  calculate_lever_arm arm angle = Raise IndexError.
Proof.
  intros Hlen.
  destruct arm as [| x [| a [| b rest]]]; try reflexivity.
  simpl in Hlen. lia.
Qed.

Lemma calculate_lever_arm_short_arm_witness :
  (length [Fin 1; Fin 2] < 3)%nat
  /\ calculate_lever_arm [Fin 1; Fin 2] (Fin 0) = Raise IndexError.
Proof.
  assert (H : (length [Fin 1; Fin 2] < 3)%nat) by (simpl; lia).
  split; [exact H | apply calculate_lever_arm_short_arm; exact H].
Defined.

(** X12.  The sign of [arm[1]] is lost: the arm enters through its square. *)
Theorem calculate_lever_arm_ignores_sign (arm0 a b : R) (angle : npfloat) :
  calculate_lever_arm [Fin arm0; Fin (- a); Fin b] angle
  = calculate_lever_arm [Fin arm0; Fin a; Fin b] angle.
Proof.
  unfold calculate_lever_arm, getitem. cbn [nth_error bind np_multiply].
  replace (- a * - a) with (a * a) by ring. reflexivity.
Qed.

(** X15.  When the angle is the angle of the leg triangle the arm resolves to
    [-arm[0]], 0 and minus the hypotenuse. *)
Theorem calculate_lever_arm_at_leg_angle (arm0 a b : R) :
  ~ (a = 0 /\ b = 0) ->
  let c := sqrt (a * a + b * b) in
  calculate_lever_arm [Fin arm0; Fin a; Fin b] (Fin (acos (b / c))) =
    Ok [Fin (- arm0); Fin 0; Fin (- c)].
Proof.
  intros H c. rewrite (calculate_lever_arm_finite H). fold c.
  replace (acos (b / c) - acos (b / c)) with 0 by ring.
  rewrite sin_0, cos_0, Rmult_0_r, Rmult_1_r. reflexivity.
Qed.

Lemma calculate_lever_arm_at_leg_angle_witness :
  ~ (3 = 0 /\ 4 = 0)
  /\ calculate_lever_arm [Fin 1; Fin 3; Fin 4]
       (Fin (acos (4 / sqrt (3 * 3 + 4 * 4))))
     = Ok [Fin (- 1); Fin 0; Fin (- sqrt (3 * 3 + 4 * 4))].
Proof.
  assert (H : ~ (3 = 0 /\ 4 = 0)) by (intros [H _]; lra).
  split; [exact H | apply (calculate_lever_arm_at_leg_angle 1 H)].
Defined.

End LeverArmMore.

(** ** More on the trajectory stages *)

Module TrajectoryMore.

Import Georeferencing TrajectoryFacts.
Local Open Scope R_scope.

(** *** The rotation step, vector by vector *)

Lemma rotate_positions_map (q : quaternion) (positions : list vec3) :
  rotate_positions q positions = map (rotate_vector q) positions.
Proof.
  unfold rotate_positions, quaternion_to_vector, sandwich, vector_to_quaternion.
  rewrite !map_map. reflexivity.
Qed.

(** *** Broadcasting *)

Section Broadcast.

Variables X Y Z : Type.
Variable f : X -> Y -> Z.

Lemma broadcast2_mismatch (xs : list X) (ys : list Y) :
  length xs <> length ys -> length xs <> 1%nat -> length ys <> 1%nat ->
  broadcast2 f xs ys = Raise ValueError.
Proof.
  intros Hne Hx Hy. unfold broadcast2.
  destruct (Nat.eqb_spec (length xs) (length ys)) as [Heq | _];
    [contradiction |].
  destruct xs as [| x [| x' xs]]; destruct ys as [| y [| y' ys]];
    simpl in *; try reflexivity; try contradiction; exfalso; auto.
Qed.

Lemma broadcast2_single_right (xs : list X) (y : Y) :
  broadcast2 f xs [y] = Ok (map (fun x => f x y) xs).
Proof.
  unfold broadcast2. destruct xs as [| x [| x' xs]]; reflexivity.
Qed.

Lemma map2_map_right (W : Type) (g : W -> Y) (xs : list X) :
  forall ws, map2 f xs (map g ws) = map2 (fun x w => f x (g w)) xs ws.
Proof.
  induction xs as [| x xs IH]; intros [| w ws]; simpl; try reflexivity.
  rewrite IH. reflexivity.
Qed.

Lemma map2_same (W : Type) (g : W -> X) (h : W -> Y) (ws : list W) :
  map2 f (map g ws) (map h ws) = map (fun w => f (g w) (h w)) ws.
Proof.
  induction ws as [| w ws IH]; simpl; [reflexivity |].
  rewrite IH. reflexivity.
Qed.

End Broadcast.

(** *** Sensor composition *)

(** X16.  Arrays whose lengths differ, none of them of length one, are refused:
    the attitudes against the positions, then the lever arms against the
    attitudes. *)
Theorem calculate_transducer_trajectory_length_mismatch
  (cam_positions : list vec3) (cam_attitudes : list row4)
  (lever_arms : list vec3) :
  (length cam_attitudes <> length cam_positions
   /\ length cam_attitudes <> 1 /\ length cam_positions <> 1)%nat
  \/ (length cam_attitudes = length cam_positions
      /\ length lever_arms <> length cam_attitudes
      /\ length lever_arms <> 1 /\ length cam_attitudes <> 1)%nat ->
  calculate_transducer_trajectory cam_positions cam_attitudes lever_arms
  = Raise ValueError.
Proof.
  intros [[Hne [Ha Hp]] | [Heq [Hne [Hl Ha]]]];
    unfold calculate_transducer_trajectory.
  - rewrite broadcast2_mismatch; [reflexivity | | |]; lengths.
  - rewrite (broadcast2_same_length qmul (as_quat_array cam_attitudes)
               (vector_to_quaternion (unit_directions cam_positions)))
      by lengths.
    rewrite bind_Ok, broadcast2_same_length, bind_Ok by lengths.
    rewrite broadcast2_mismatch; [reflexivity | | |]; lengths.
Qed.

Lemma calculate_transducer_trajectory_length_mismatch_witness :
  let cam_positions := [(0, 0, 0); (1, 0, 0); (2, 0, 0)] in
  let cam_attitudes := [(1, 0, 0, 0); (1, 0, 0, 0)] in
  let lever_arms := [(0, 0, 1); (0, 0, 1); (0, 0, 1)] in
  ((length cam_attitudes <> length cam_positions
    /\ length cam_attitudes <> 1 /\ length cam_positions <> 1)%nat
   \/ (length cam_attitudes = length cam_positions
       /\ length lever_arms <> length cam_attitudes
       /\ length lever_arms <> 1 /\ length cam_attitudes <> 1)%nat)
  /\ calculate_transducer_trajectory cam_positions cam_attitudes lever_arms
     = Raise ValueError.
Proof.
  intros cam_positions cam_attitudes lever_arms.
  assert (H : (length cam_attitudes <> length cam_positions
               /\ length cam_attitudes <> 1 /\ length cam_positions <> 1)%nat
              \/ (length cam_attitudes = length cam_positions
                  /\ length lever_arms <> length cam_attitudes
                  /\ length lever_arms <> 1 /\ length cam_attitudes <> 1)%nat).
  { left. simpl. repeat split; discriminate. }
  split; [exact H |].
  apply calculate_transducer_trajectory_length_mismatch. exact H.
Defined.

(** X17.  A single lever arm is broadcast to every sample. *)
Theorem calculate_transducer_trajectory_single_lever_arm
  (cam_positions : list vec3) (cam_attitudes : list row4) (lever_arm : vec3) :
  length cam_attitudes = length cam_positions ->
  calculate_transducer_trajectory cam_positions cam_attitudes [lever_arm]
  = Ok (map2 (fun p q => vadd p (rotate_vector q lever_arm))
          cam_positions (as_quat_array cam_attitudes)).
Proof.
  intros Ha. unfold calculate_transducer_trajectory.
  rewrite (broadcast2_same_length qmul (as_quat_array cam_attitudes)
             (vector_to_quaternion (unit_directions cam_positions)))
    by lengths.
  rewrite bind_Ok, broadcast2_same_length, bind_Ok by lengths.
  change (vector_to_quaternion [lever_arm]) with [pure_quaternion lever_arm].
  rewrite broadcast2_single_right, bind_Ok.
  rewrite broadcast2_same_length, bind_Ok by lengths.
  rewrite map2_same. unfold quaternion_to_vector. rewrite map_map.
  rewrite broadcast2_same_length by lengths.
  rewrite map2_map_right. reflexivity.
Qed.

Lemma calculate_transducer_trajectory_single_lever_arm_witness :
  let cam_positions := [(0, 0, 0); (1, 0, 0)] in
  let cam_attitudes := [(1, 0, 0, 0); (1, 0, 0, 0)] in
  length cam_attitudes = length cam_positions
  /\ calculate_transducer_trajectory cam_positions cam_attitudes [(0, 0, 1)]
     = Ok (map2 (fun p q => vadd p (rotate_vector q (0, 0, 1)))
             cam_positions (as_quat_array cam_attitudes)).
Proof.
  intros cam_positions cam_attitudes.
  assert (Ha : length cam_attitudes = length cam_positions) by reflexivity.
  split; [exact Ha |].
  apply calculate_transducer_trajectory_single_lever_arm. exact Ha.
Defined.

(** *** Alignment and georeferencing *)

Lemma length_rotate_positions (r : quaternion) (positions : list vec3) :
  length (rotate_positions r positions) = length positions.
Proof. rewrite rotate_positions_map. apply length_map. Qed.

Lemma length_rotate_attitudes (r : quaternion) (attitudes : list row4) :
  length (rotate_attitudes r attitudes) = length attitudes.
Proof.
  unfold rotate_attitudes, as_float_array, as_quat_array.
  rewrite !length_map. reflexivity.
Qed.

Lemma length_translate (positions : list vec3) (t i : vec3) :
  length (translate positions t i) = length positions.
Proof. apply length_map. Qed.

Section Stages.

(** [utilities.quaternion_from_axis_angle] *)
Variable axis_angle : vec3 -> R -> quaternion.

Lemma georeference_trajectories_cases (cam_positions : list vec3)
  (cam_attitudes : list row4) (trans_positions : list vec3)
  (init_position init_attitude : vec3) :
  let rotation := initial_rotation axis_angle init_attitude in
  georeference_trajectories axis_angle cam_positions cam_attitudes
    trans_positions init_position init_attitude
  = match trans_positions with
    | [] => Raise IndexError
    | first :: _ =>
        Ok (translate (rotate_positions rotation cam_positions)
              (rotate_vector rotation first) init_position,
            rotate_attitudes rotation cam_attitudes,
            translate (rotate_positions rotation trans_positions)
              (rotate_vector rotation first) init_position)
    end.
Proof.
  intros rotation. destruct trans_positions as [| first rest]; reflexivity.
Qed.

(** X20.  Without a transducer sample there is no first position to align on:
    the stage raises [IndexError], whatever the camera trajectory. *)
Theorem georeference_trajectories_empty (cam_positions : list vec3)
  (cam_attitudes : list row4) (init_position init_attitude : vec3) :
  georeference_trajectories axis_angle cam_positions cam_attitudes []
    init_position init_attitude
  = Raise IndexError
  /\ forall trans_positions,
      returns (georeference_trajectories axis_angle cam_positions
                 cam_attitudes trans_positions init_position init_attitude)
      <-> trans_positions <> [].
Proof.
  split; [reflexivity |]. intros trans_positions.
  rewrite georeference_trajectories_cases.
  destruct trans_positions as [| first rest]; split.
  - intros [r Hr]. discriminate Hr.
  - intros H. contradiction.
  - intros _. discriminate.
  - intros _. eexists. reflexivity.
Qed.

(** X21.  The stage checks no sample count: each returned array has the length
    of its own input, also when the camera and transducer trajectories
    differ in length. *)
Theorem georeference_trajectories_lengths (cam_positions : list vec3)
  (cam_attitudes : list row4) (trans_positions : list vec3)
  (init_position init_attitude : vec3) :
  trans_positions <> [] ->
  exists cam_positions' cam_attitudes' trans_positions',
    georeference_trajectories axis_angle cam_positions cam_attitudes
      trans_positions init_position init_attitude
    = Ok (cam_positions', cam_attitudes', trans_positions')
    /\ length cam_positions' = length cam_positions
    /\ length cam_attitudes' = length cam_attitudes
    /\ length trans_positions' = length trans_positions.
Proof.
  intros Hne. rewrite georeference_trajectories_cases.
  destruct trans_positions as [| first rest]; [contradiction |].
  do 3 eexists. split; [reflexivity |].
  rewrite !length_translate, !length_rotate_positions, length_rotate_attitudes.
  repeat split.
Qed.

(** For as many attitudes as camera positions the alignment stage returns
    the three arrays turned by its rotation; it accepts a transducer
    trajectory of any length, the empty one included. *)
Theorem align_trajectories_same_length (cam_positions : list vec3)
  (cam_attitudes : list row4) (trans_positions : list vec3) (inclination : R) :
  length cam_attitudes = length cam_positions ->
  let rotation := alignment_rotation axis_angle inclination in
  align_trajectories axis_angle cam_positions cam_attitudes trans_positions
    inclination
  = Ok (rotate_positions rotation cam_positions,
        rotate_attitudes rotation cam_attitudes,
        rotate_positions rotation trans_positions).
Proof.
  intros Ha rotation. unfold align_trajectories. fold rotation.
  rewrite broadcast2_same_length, bind_Ok by lengths.
  rewrite broadcast2_same_length, bind_Ok by lengths.
  reflexivity.
Qed.

(** X24.  The camera directions are computed although they are not returned, so
    attitudes and camera positions of different lengths, none of length
    one, make the alignment stage raise [ValueError]. *)
Theorem align_trajectories_length_mismatch (cam_positions : list vec3)
  (cam_attitudes : list row4) (trans_positions : list vec3) (inclination : R) :
  length cam_attitudes <> length cam_positions ->
  length cam_attitudes <> 1%nat ->
  length cam_positions <> 1%nat ->
  align_trajectories axis_angle cam_positions cam_attitudes trans_positions
    inclination
  = Raise ValueError.
Proof.
  intros Hne Ha Hp. unfold align_trajectories.
  rewrite broadcast2_mismatch; [reflexivity | | |]; lengths.
Qed.

Lemma vsub_self_vadd (t i : vec3) : vadd (vsub t t) i = i.
Proof.
  destruct t as [[t1 t2] t3], i as [[i1 i2] i3].
  unfold vadd, vsub. f_equal; [f_equal |]; ring.
Qed.

(** X25.  Alignment followed by georeferencing, on as many attitudes as
    camera positions and a non-empty transducer trajectory, returns arrays
    of the lengths of the inputs whose first transducer position is the
    initial position. *)
Theorem align_then_georeference (cam_positions : list vec3)
  (cam_attitudes : list row4) (trans_positions : list vec3) (inclination : R)
  (init_position init_attitude : vec3) :
  length cam_attitudes = length cam_positions ->
  trans_positions <> [] ->
  exists cam_positions' cam_attitudes' trans_positions',
    (aligned <- align_trajectories axis_angle cam_positions cam_attitudes
                  trans_positions inclination ;;
     let '(positions, attitudes, transducers) := aligned in
     georeference_trajectories axis_angle positions attitudes transducers
       init_position init_attitude)
    = Ok (cam_positions', cam_attitudes', trans_positions')
    /\ nth_error trans_positions' 0 = Some init_position
    /\ length cam_positions' = length cam_positions
    /\ length cam_attitudes' = length cam_attitudes
    /\ length trans_positions' = length trans_positions.
Proof.
  intros Ha Hne.
  rewrite (@align_trajectories_same_length cam_positions cam_attitudes
             trans_positions inclination Ha), bind_Ok.
  cbv beta iota. rewrite georeference_trajectories_cases.
  destruct trans_positions as [| first rest]; [contradiction |].
  rewrite (rotate_positions_map _ (first :: rest)). cbn [map].
  do 3 eexists. split; [reflexivity |].
  split.
  - rewrite rotate_positions_map. cbn [map translate nth_error].
    rewrite vsub_self_vadd. reflexivity.
  - rewrite !length_translate, !length_rotate_positions,
      !length_rotate_attitudes.
    cbn [length map]. rewrite length_map. repeat split.
Qed.

End Stages.

Lemma georeference_trajectories_lengths_witness :
  let identity := fun (_ : vec3) (_ : R) => quat 1 0 0 0 in
  [(0, 0, 1)] <> []
  /\ exists cam_positions' cam_attitudes' trans_positions',
      georeference_trajectories identity [(0, 0, 0); (1, 0, 0); (2, 0, 0)]
        [(1, 0, 0, 0); (1, 0, 0, 0)] [(0, 0, 1)] (10, 20, 30) (0, 0, 0)
      = Ok (cam_positions', cam_attitudes', trans_positions')
      /\ length cam_positions' = 3%nat
      /\ length cam_attitudes' = 2%nat
      /\ length trans_positions' = 1%nat.
Proof.
  intros identity.
  assert (Hne : [(0, 0, 1)] <> ([] : list vec3)) by discriminate.
  split; [exact Hne |].
  apply (@georeference_trajectories_lengths identity
           [(0, 0, 0); (1, 0, 0); (2, 0, 0)] [(1, 0, 0, 0); (1, 0, 0, 0)]
           [(0, 0, 1)] (10, 20, 30) (0, 0, 0) Hne).
Defined.

Lemma align_trajectories_same_length_witness :
  let identity := fun (_ : vec3) (_ : R) => quat 1 0 0 0 in
  let cam_positions := [(0, 0, 0); (1, 0, 0)] in
  let cam_attitudes := [(1, 0, 0, 0); (1, 0, 0, 0)] in
  length cam_attitudes = length cam_positions
  /\ align_trajectories identity cam_positions cam_attitudes [] (PI / 4)
     = Ok (rotate_positions (alignment_rotation identity (PI / 4)) cam_positions,
           rotate_attitudes (alignment_rotation identity (PI / 4)) cam_attitudes,
           rotate_positions (alignment_rotation identity (PI / 4)) []).
Proof.
  intros identity cam_positions cam_attitudes.
  assert (Ha : length cam_attitudes = length cam_positions) by reflexivity.
  split; [exact Ha |].
  apply (@align_trajectories_same_length identity cam_positions cam_attitudes
           [] (PI / 4) Ha).
Defined.

Lemma align_trajectories_length_mismatch_witness :
  let identity := fun (_ : vec3) (_ : R) => quat 1 0 0 0 in
  let cam_positions := [(0, 0, 0); (1, 0, 0); (2, 0, 0)] in
  let cam_attitudes := [(1, 0, 0, 0); (1, 0, 0, 0)] in
  length cam_attitudes <> length cam_positions
  /\ length cam_attitudes <> 1%nat
  /\ length cam_positions <> 1%nat
  /\ align_trajectories identity cam_positions cam_attitudes [] (PI / 4)
     = Raise ValueError.
Proof.
  intros identity cam_positions cam_attitudes.
  assert (Hne : length cam_attitudes <> length cam_positions)
    by (simpl; discriminate).
  assert (Ha : length cam_attitudes <> 1%nat) by (simpl; discriminate).
  assert (Hp : length cam_positions <> 1%nat) by (simpl; discriminate).
  split; [exact Hne | split; [exact Ha | split; [exact Hp |]]].
  apply (@align_trajectories_length_mismatch identity cam_positions
           cam_attitudes [] (PI / 4) Hne Ha Hp).
Defined.

Lemma align_then_georeference_witness :
  let identity := fun (_ : vec3) (_ : R) => quat 1 0 0 0 in
  let cam_positions := [(0, 0, 0); (1, 0, 0)] in
  let cam_attitudes := [(1, 0, 0, 0); (1, 0, 0, 0)] in
  let trans_positions := [(0, 0, 1); (1, 0, 1)] in
  length cam_attitudes = length cam_positions
  /\ trans_positions <> []
  /\ exists cam_positions' cam_attitudes' trans_positions',
      (aligned <- align_trajectories identity cam_positions cam_attitudes
                    trans_positions (PI / 4) ;;
       let '(positions, attitudes, transducers) := aligned in
       georeference_trajectories identity positions attitudes transducers
         (10, 20, 30) (0, 0, 0))
      = Ok (cam_positions', cam_attitudes', trans_positions')
      /\ nth_error trans_positions' 0 = Some (10, 20, 30).
Proof.
  intros identity cam_positions cam_attitudes trans_positions.
  assert (Ha : length cam_attitudes = length cam_positions) by reflexivity.
  assert (Hne : trans_positions <> []) by discriminate.
  split; [exact Ha | split; [exact Hne |]].
  destruct (@align_then_georeference identity cam_positions cam_attitudes
              trans_positions (PI / 4) (10, 20, 30) (0, 0, 0) Ha Hne)
    as [cam' [att' [trans' [Hrun [Hfirst _]]]]].
  exists cam', att', trans'. split; [exact Hrun | exact Hfirst].
Defined.

End TrajectoryMore.

(** ** The sample frequency of the positioning data *)

Module FilterHipapFacts.

Import FilterHipap.
Local Open Scope R_scope.

(** X26.  With fewer than two timestamps there is no step to average: the sample
    frequency is [NaN], and no error is raised. *)
Theorem hipap_sample_frequency_too_short (time : list R) :
  (length time < 2)%nat ->
  hipap_sample_frequency time = NaN.
Proof.
  intros Hlen. destruct time as [| t0 [| t1 rest]]; try reflexivity.
  simpl in Hlen. lia.
Qed.

Lemma hipap_sample_frequency_too_short_witness :
  (length [5] < 2)%nat /\ hipap_sample_frequency [5] = NaN.
Proof.
  assert (H : (length [5] < 2)%nat) by (simpl; lia).
  split; [exact H | apply hipap_sample_frequency_too_short; exact H].
Defined.

End FilterHipapFacts.

(** ** The camera trajectory from the positioning fixes *)

Module CameraFacts.

Import Georeferencing TrajectoryFacts TrajectoryMore.
Local Open Scope R_scope.

Section SetNth.

Variable A : Type.

Lemma length_set_nth (v : A) (l : list A) :
  forall k, length (set_nth k v l) = length l.
Proof.
  induction l as [| x l IH]; intros [| k]; simpl; try reflexivity.
  rewrite IH. reflexivity.
Qed.

Lemma nth_error_set_nth_same (v : A) (l : list A) :
  forall k, (k < length l)%nat -> nth_error (set_nth k v l) k = Some v.
Proof.
  induction l as [| x l IH]; intros [| k] Hk; simpl in *; try lia.
  - reflexivity.
  - apply IH. lia.
Qed.

Lemma nth_error_set_nth_other (v : A) (l : list A) :
  forall k i, i <> k -> nth_error (set_nth k v l) i = nth_error l i.
Proof.
  induction l as [| x l IH]; intros [| k] [| i] Hne; simpl;
    try reflexivity; try contradiction.
  apply IH. intros Heq. apply Hne. rewrite Heq. reflexivity.
Qed.

End SetNth.

Section Camera.

Variable axis_angle : vec3 -> R -> quaternion.
Variable closest_point : R -> list R -> result Z.
Variables aps gyro : list (R * vec3).
Variable q_dec : quaternion.

Let selected := selected_rotation axis_angle closest_point aps gyro.
Let step := camera_step axis_angle closest_point aps gyro q_dec.
Let loop := camera_loop axis_angle closest_point aps gyro q_dec.

(** A turn of the loop whose selection succeeds rewrites position [k] of
    the three arrays. *)
Lemma camera_step_selected (k : nat) (st : camera_state)
  (q lever_arm direction : quaternion) :
  selected k = Some q ->
  nth_error (state_lever_arms st) k = Some lever_arm ->
  nth_error (state_directions st) k = Some direction ->
  step k st =
    Ok (mk_camera_state
          (set_nth k (qmul (qmul q lever_arm) (conjugate q)) (state_lever_arms st))
          (set_nth k (qmul (qmul (qmul q_dec q) direction)
                        (conjugate (qmul q_dec q)))
             (state_directions st))
          (set_nth k (qmul q_dec q) (state_attitudes st))).
Proof.
  unfold selected, selected_rotation, step, camera_step.
  intros Hsel Hl Hd.
  destruct (nth_error aps k) as [[ts pos] |]; [| discriminate Hsel].
  destruct (closest_point ts (map fst gyro)) as [j | e]; [| discriminate Hsel].
  rewrite bind_Ok.
  destruct (normalize_index (length gyro) j) as [i | e]; [| discriminate Hsel].
  rewrite bind_Ok.
  destruct (nth_error gyro i) as [[gts att] |]; [| discriminate Hsel].
  injection Hsel as Hq. rewrite Hq, Hl, Hd. reflexivity.
Qed.

(** What the loop over [s, s + n) leaves in the arrays. *)
Lemma camera_loop_range (n : nat) :
  forall (s : nat) (st : camera_state),
    (forall k, (s <= k < s + n)%nat -> exists q, selected k = Some q) ->
    (s + n <= length (state_lever_arms st))%nat ->
    (s + n <= length (state_directions st))%nat ->
    (s + n <= length (state_attitudes st))%nat ->
    exists st',
      loop (seq s n) st = Ok st'
      /\ length (state_lever_arms st') = length (state_lever_arms st)
      /\ length (state_directions st') = length (state_directions st)
      /\ length (state_attitudes st') = length (state_attitudes st)
      /\ (forall k, (k < s \/ s + n <= k)%nat ->
             nth_error (state_lever_arms st') k = nth_error (state_lever_arms st) k
             /\ nth_error (state_directions st') k
                = nth_error (state_directions st) k)
      /\ (forall k q lever_arm direction,
             (s <= k < s + n)%nat ->
             selected k = Some q ->
             nth_error (state_lever_arms st) k = Some lever_arm ->
             nth_error (state_directions st) k = Some direction ->
             nth_error (state_lever_arms st') k
             = Some (qmul (qmul q lever_arm) (conjugate q))
             /\ nth_error (state_directions st') k
                = Some (qmul (qmul (qmul q_dec q) direction)
                          (conjugate (qmul q_dec q)))
             /\ nth_error (state_attitudes st') k = Some (qmul q_dec q)).
Proof.
  induction n as [| n IH]; intros s st Hsel Hl Hd Ha.
  - exists st. split; [reflexivity |]. repeat split; try reflexivity.
    all: intros; lia.
  - destruct (Hsel s ltac:(lia)) as [q0 Hq0].
    destruct (nth_error (state_lever_arms st) s) as [l0 |] eqn:Hl0;
      [| apply nth_error_None in Hl0; lia].
    destruct (nth_error (state_directions st) s) as [d0 |] eqn:Hd0;
      [| apply nth_error_None in Hd0; lia].
    pose proof (camera_step_selected s st Hq0 Hl0 Hd0) as Hstep.
    set (st1 := mk_camera_state
                  (set_nth s (qmul (qmul q0 l0) (conjugate q0))
                     (state_lever_arms st))
                  (set_nth s (qmul (qmul (qmul q_dec q0) d0)
                                (conjugate (qmul q_dec q0)))
                     (state_directions st))
                  (set_nth s (qmul q_dec q0) (state_attitudes st))) in *.
    destruct (IH (S s) st1) as [st' [Hrun [Hll [Hld [Hla [Hout Hin]]]]]].
    + intros k Hk. apply Hsel. lia.
    + simpl. rewrite length_set_nth. lia.
    + simpl. rewrite length_set_nth. lia.
    + simpl. rewrite length_set_nth. lia.
    + exists st'. simpl in Hll, Hld, Hla. rewrite length_set_nth in Hll, Hld, Hla.
      split.
      { unfold loop in *. cbn [seq camera_loop]. fold step. rewrite Hstep, bind_Ok.
        exact Hrun. }
      split; [exact Hll |]. split; [exact Hld |]. split; [exact Hla |].
      split.
      * intros k Hk. destruct (Hout k ltac:(lia)) as [H1 H2].
        rewrite H1, H2. simpl.
        rewrite !nth_error_set_nth_other by lia. split; reflexivity.
      * intros k q l d Hk Hq Hlk Hdk.
        destruct (Nat.eq_dec k s) as [-> | Hks].
        -- destruct (Hout s ltac:(lia)) as [H1 H2].
           rewrite H1, H2. simpl.
           rewrite !nth_error_set_nth_same by lia.
           rewrite Hq0 in Hq. injection Hq as <-.
           rewrite Hl0 in Hlk. injection Hlk as <-.
           rewrite Hd0 in Hdk. injection Hdk as <-.
           split; [reflexivity | split; [reflexivity |]].
           assert (Hatt : forall m (s0 : nat) (st0 : camera_state) st0',
                      loop (seq s0 m) st0 = Ok st0' ->
                      forall k0, (k0 < s0)%nat ->
                        nth_error (state_attitudes st0') k0
                        = nth_error (state_attitudes st0) k0).
           { clear. induction m as [| m IHm]; intros s0 st0 st0' Hrun0 k0 Hk0.
             - injection Hrun0 as <-. reflexivity.
             - unfold loop in Hrun0. cbn [seq camera_loop] in Hrun0.
               apply bind_returns in Hrun0. destruct Hrun0 as [stm [Hs Hr]].
               rewrite (IHm (S s0) stm st0' Hr k0 ltac:(lia)).
               unfold camera_step in Hs.
               destruct (nth_error aps s0) as [[ts pos] |]; [| discriminate Hs].
               apply bind_returns in Hs. destruct Hs as [j [_ Hs]].
               apply bind_returns in Hs. destruct Hs as [i [_ Hs]].
               destruct (nth_error gyro i) as [[gts att] |]; [| discriminate Hs].
               destruct (nth_error (state_lever_arms st0) s0);
                 [| discriminate Hs].
               destruct (nth_error (state_directions st0) s0);
                 [| discriminate Hs].
               injection Hs as <-. simpl.
               apply nth_error_set_nth_other. lia. }
           rewrite (Hatt n (S s) st1 st' Hrun s ltac:(lia)). simpl.
           apply nth_error_set_nth_same. lia.
        -- apply Hin; [lia | exact Hq | |]; simpl;
             rewrite nth_error_set_nth_other by lia; assumption.
Qed.

End Camera.

Section Trajectory.

Variable axis_angle : vec3 -> R -> quaternion.
Variable closest_point : R -> list R -> result Z.

Lemma camera_loop_app (aps gyro : list (R * vec3)) (q_dec : quaternion)
  (ks1 ks2 : list nat) :
  forall st,
    camera_loop axis_angle closest_point aps gyro q_dec (ks1 ++ ks2) st
    = (st' <- camera_loop axis_angle closest_point aps gyro q_dec ks1 st ;;
       camera_loop axis_angle closest_point aps gyro q_dec ks2 st').
Proof.
  induction ks1 as [| k ks1 IH]; intros st; [reflexivity |].
  cbn [app camera_loop].
  destruct (camera_step axis_angle closest_point aps gyro q_dec k st)
    as [st1 | e]; [| reflexivity].
  rewrite !bind_Ok. apply IH.
Qed.


(** X29.  Fewer lever arms than APS samples: the loop runs out of lever arms and
    the call raises [IndexError]. *)
Theorem calculate_camera_trajectory_short_lever_arms
  (aps gyro : list (R * vec3)) (lever_arms : list vec3) (declination : R) :
  (length lever_arms < length aps)%nat ->
  (forall k, (k < length aps)%nat ->
     exists q, selected_rotation axis_angle closest_point aps gyro k = Some q) ->
  calculate_camera_trajectory axis_angle closest_point aps gyro lever_arms
    declination
  = Raise IndexError.
Proof.
  intros Hlen Hsel. unfold calculate_camera_trajectory.
  set (q_dec := axis_angle (0, 1, 0) declination).
  set (st0 := mk_camera_state (vector_to_quaternion lever_arms)
                (vector_to_quaternion (map (fun _ => (1, 0, 0)) aps))
                (map (fun _ => quat 0 0 0 0) aps)).
  set (m := length lever_arms) in *.
  replace (length aps) with (m + (length aps - m))%nat by lia.
  rewrite seq_app, camera_loop_app.
  destruct (@camera_loop_range axis_angle closest_point aps gyro q_dec
              m 0%nat st0) as [st [Hrun [Hll [_ [_ _]]]]].
  - intros k Hk. apply Hsel. lia.
  - simpl. rewrite length_vector_to_quaternion. fold m. lia.
  - simpl. rewrite length_vector_to_quaternion, length_map. lia.
  - simpl. rewrite length_map. lia.
  - rewrite Hrun, bind_Ok.
    simpl in Hll. rewrite length_vector_to_quaternion in Hll. fold m in Hll.
    destruct (length aps - m)%nat as [| r] eqn:Hr; [lia |].
    cbn [seq camera_loop Nat.add].
    assert (Hstep : camera_step axis_angle closest_point aps gyro q_dec m st
                    = Raise IndexError).
    { destruct (Hsel m ltac:(lia)) as [q Hq].
      unfold selected_rotation in Hq. unfold camera_step.
      destruct (nth_error aps m) as [[ts pos] |]; [| discriminate Hq].
      destruct (closest_point ts (map fst gyro)) as [j | e]; [| discriminate Hq].
      rewrite bind_Ok.
      destruct (normalize_index (length gyro) j) as [i | e]; [| discriminate Hq].
      rewrite bind_Ok.
      destruct (nth_error gyro i) as [[gts att] |]; [| discriminate Hq].
      assert (Hnone : nth_error (state_lever_arms st) m = None)
        by (apply nth_error_None; lia).
      rewrite Hnone. reflexivity. }
    rewrite Hstep. reflexivity.
Qed.

(** X30.  Without an APS sample the loop does nothing; only the closing sum can
    fail, when there are two lever arms or more to add to no position. *)
Theorem calculate_camera_trajectory_no_samples (gyro : list (R * vec3))
  (lever_arms : list vec3) (declination : R) :
  calculate_camera_trajectory axis_angle closest_point [] gyro lever_arms
    declination
  = if (length lever_arms <=? 1)%nat then Ok ([], [], [])
    else Raise ValueError.
Proof.
  unfold calculate_camera_trajectory. cbn [length seq camera_loop map].
  rewrite bind_Ok. cbn [state_lever_arms state_directions state_attitudes].
  destruct lever_arms as [| v [| v' rest]]; reflexivity.
Qed.

End Trajectory.


Lemma calculate_camera_trajectory_short_lever_arms_witness :
  let identity := fun (_ : vec3) (_ : R) => quat 1 0 0 0 in
  let first := fun (_ : R) (_ : list R) => Ok 0%Z in
  let aps := [(0, (1, 2, 3)); (1, (4, 5, 6))] in
  let gyro := [(0, (0, 0, 0))] in
  let lever_arms := [(0, 0, 1)] in
  (length lever_arms < length aps)%nat
  /\ (forall k, (k < length aps)%nat ->
        exists q, selected_rotation identity first aps gyro k = Some q)
  /\ calculate_camera_trajectory identity first aps gyro lever_arms 0
     = Raise IndexError.
Proof.
  intros identity first aps gyro lever_arms.
  assert (Hlen : (length lever_arms < length aps)%nat) by (simpl; lia).
  assert (Hsel : forall k, (k < length aps)%nat ->
            exists q, selected_rotation identity first aps gyro k = Some q).
  { intros [| [| k]] Hk; [eexists; reflexivity | eexists; reflexivity |].
    simpl in Hk. lia. }
  split; [exact Hlen | split; [exact Hsel |]].
  apply (@calculate_camera_trajectory_short_lever_arms identity first aps gyro
           lever_arms 0 Hlen Hsel).
Defined.

End CameraFacts.
